(** * Map lowering of the TinyGo compiler (compiler/map.go)

    A shallow embedding of [compiler/map.go]: the key test
    [hashmapIsBinaryKey], the hash helpers [hashmapHash] and
    [hashmapTopHash], and the four lowering procedures [emitMakeMap],
    [emitMapLookup], [emitMapUpdate] and [emitMapDelete].

    Go's [go/types] descriptors are an inductive type, [uint32] and [uint8]
    are [Z] with the wrap-around written out, and the LLVM builder the
    lowering procedures write to is an explicit state that records the
    emitted instructions.  A small machine runs the emitted code against
    the runtime's call contract. *)

From Stdlib Require Import ZArith List String Bool Lia Permutation.
From Stdlib.Strings Require Import Byte.
From Stdlib Require DecimalString.
Import ListNotations.

Set Warnings "-register-all".

Local Open Scope string_scope.
Local Open Scope list_scope.
Local Open Scope Z_scope.

(** ** go/types: static type descriptors *)

Module types.

(** [types.BasicKind]: the kinds of [types.Typ]. *)
Inductive BasicKind : Type :=
| Invalid
| Bool
| Int | Int8 | Int16 | Int32 | Int64
| Uint | Uint8 | Uint16 | Uint32 | Uint64 | Uintptr
| Float32 | Float64
| Complex64 | Complex128
| String
| UnsafePointer
| UntypedBool | UntypedInt | UntypedRune | UntypedFloat
| UntypedComplex | UntypedString | UntypedNil.

(** [types.BasicInfo] flags, [1 << iota]. *)
Definition IsBoolean  : Z := 1.
Definition IsInteger  : Z := 2.
Definition IsUnsigned : Z := 4.
Definition IsFloat    : Z := 8.
Definition IsComplex  : Z := 16.
Definition IsString   : Z := 32.
Definition IsUntyped  : Z := 64.

(** [Basic.Info()], the flag column of [types.Typ]. *)
Definition Info (k : BasicKind) : Z :=
  match k with
  | Invalid => 0
  | Bool => IsBoolean
  | Int | Int8 | Int16 | Int32 | Int64 => IsInteger
  | Uint | Uint8 | Uint16 | Uint32 | Uint64 | Uintptr =>
      Z.lor IsInteger IsUnsigned
  | Float32 | Float64 => IsFloat
  | Complex64 | Complex128 => IsComplex
  | String => IsString
  | UnsafePointer => 0
  | UntypedBool => Z.lor IsBoolean IsUntyped
  | UntypedInt | UntypedRune => Z.lor IsInteger IsUntyped
  | UntypedFloat => Z.lor IsFloat IsUntyped
  | UntypedComplex => Z.lor IsComplex IsUntyped
  | UntypedString => Z.lor IsString IsUntyped
  | UntypedNil => IsUntyped
  end.

(** [types.Type].  A [Named] type stores its underlying type, as
    [go/types] does.  Go rejects a type that contains itself except
    below a pointer, slice, map, channel, function or interface, so the
    part of a type reached through struct fields, array elements and
    underlying types is a finite tree. *)
Inductive Type_ : Type :=
| Basic (kind : BasicKind)
| Pointer (elem : Type_)
| Struct (fields : list (string * Type_))
| Array (len : Z) (elem : Type_)
| Named (name : string) (underlying : Type_)
| Slice (elem : Type_)
| Map (key elem : Type_)
| Chan (elem : Type_)
| Signature (params results : list Type_)
| Interface (methods : list string)
| Tuple (vars : list Type_).

(** [Type.Underlying()]: the stored underlying type of a named type, the
    type itself otherwise. *)
Definition Underlying (t : Type_) : Type_ :=
  match t with
  | Named _ u => u
  | _ => t
  end.

(** Whether the type is a named type.  In [go/types] the underlying type
    of a named type never is. *)
Definition isNamed (t : Type_) : bool :=
  match t with Named _ _ => true | _ => false end.

End types.

Import types.

(** ** The key test *)

(** The first test of the three dispatching procedures: the key type is a
    [types.Basic] whose [Info()] has the [types.IsString] flag. *)
Definition isBasicString (keyType : Type_) : bool :=
  match keyType with
  | Basic t => negb (Z.land (Info t) IsString =? 0)
  | _ => false
  end.

(** [hashmapIsBinaryKey]: true if the key type does not contain strings,
    interfaces etc., so can be compared with runtime.memequal.  The loop
    over the fields stops at the first field that is not binary. *)
Fixpoint hashmapIsBinaryKey (keyType : Type_) : bool :=
  match keyType with
  | Basic k =>
      negb (Z.land (Info k) (Z.lor IsBoolean IsInteger) =? 0)
  | Pointer _ => true
  | Struct fields =>
      (fix loop (fs : list (string * Type_)) : bool :=
         match fs with
         | [] => true
         | f :: rest =>
             let fieldType := Underlying (snd f) in
             if negb (hashmapIsBinaryKey fieldType) then false
             else loop rest
         end) fields
  | Array _ elem => hashmapIsBinaryKey elem
  | Named name u => hashmapIsBinaryKey (Underlying (Named name u))
  | _ => false
  end.

(** ** The hash helpers *)

Definition uint32 (z : Z) : Z := z mod 2 ^ 32.
Definition uint8 (z : Z) : Z := z mod 2 ^ 8.

Definition byteZ (b : byte) : Z := Z.of_N (Byte.to_N b).

(** [hashmapHash]: FNV-1a hash of the data. *)
Definition hashmapHash (data : list byte) : Z :=
  fold_left
    (fun result c =>
       let result := Z.lxor result (uint32 (byteZ c)) in
       uint32 (result * 16777619))
    data 2166136261.

(** [hashmapTopHash]: the topmost 8 bits of the hash, without using a
    special value (like 0). *)
Definition hashmapTopHash (hash : Z) : Z :=
  let tophash := uint8 (Z.shiftr hash 24) in
  if tophash <? 1 then uint8 (tophash + 1) else tophash.

(** ** LLVM values and the instruction builder *)

Module llvm.

Inductive Type_ : Type :=
| VoidType
| IntType (bits : Z)
| FloatType
| DoubleType
| PointerType (elem : Type_)
| ArrayType (elem : Type_) (count : Z)
| StructType (elems : list Type_) (packed : bool).

(** [llvm.Value]: [Nil] is the zero value [llvm.Value{}], which refers to
    no value at all; [Reg] is the result of an emitted instruction or an
    operand handed in by the caller. *)
Inductive Value : Type :=
| Nil
| Const (t : Type_) (n : Z)
| Undef (t : Type_)
| Reg (id : nat) (t : Type_).

Definition IsNil (v : Value) : bool :=
  match v with Nil => true | _ => false end.

(** [Value.Type()].  The binding cannot be asked for the type of [Nil];
    the lowering procedures never do. *)
Definition TypeOf (v : Value) : Type_ :=
  match v with
  | Nil => VoidType
  | Const t _ | Undef t | Reg _ t => t
  end.

(** [llvm.ConstInt(t, n, signExtend)]: the constant is cut to the width
    of [t]. *)
Definition ConstInt (t : Type_) (n : Z) (signExtend : bool) : Value :=
  match t with
  | IntType bits => Const t (n mod 2 ^ bits)
  | _ => Const t n
  end.

Inductive Instr : Type :=
| TemporaryAlloca (alloca ptr size : Value) (name : string)
| LifetimeEnd (ptr size : Value)
| Store (v ptr : Value)
| Load (result ptr : Value)
| InsertValue (result agg v : Value) (index : Z)
| Convert (result v : Value)
| Call (result : Value) (fn : string) (args : list Value).

End llvm.

(** [types.Error], as made by [makeError]. *)
Record Error : Type := makeError { Pos : Z; Msg : string }.

(** What the lowering procedures change: the instructions emitted so far,
    the next free register and the diagnostics added by [addError]. *)
Record State : Type := mkState {
  insts : list llvm.Instr;
  nextId : nat;
  diagnostics : list Error
}.

(** State passing; [None] is a Go panic. *)
Definition M (A : Type) : Type := State -> option (A * State).

Definition ret {A} (a : A) : M A := fun s => Some (a, s).

Definition bind {A B} (m : M A) (k : A -> M B) : M B :=
  fun s => match m s with
           | Some (a, s') => k a s'
           | None => None
           end.

Definition panic {A} : M A := fun _ => None.

Declare Scope builder_scope.
Delimit Scope builder_scope with builder.
Notation "x <- e ;; k" := (bind e (fun x => k))
  (at level 61, e at next level, right associativity) : builder_scope.
Notation "' p <- e ;; k" := (bind e (fun x => match x with p => k end))
  (at level 61, p pattern, e at next level, right associativity)
  : builder_scope.
Notation "e ;; k" := (bind e (fun _ => k))
  (at level 61, right associativity) : builder_scope.
Local Open Scope builder_scope.

Definition fresh (t : llvm.Type_) : M llvm.Value :=
  fun s => Some (llvm.Reg (nextId s) t,
                 mkState (insts s) (S (nextId s)) (diagnostics s)).

Definition emit (i : llvm.Instr) : M unit :=
  fun s => Some (tt, mkState (insts s ++ [i]) (nextId s) (diagnostics s)).

(** [c.addError(pos, msg)]. *)
Definition addError (pos : Z) (msg : string) : M unit :=
  fun s => Some (tt, mkState (insts s) (nextId s)
                             (diagnostics s ++ [makeError pos msg])).

(** [builder.CreateStore(v, ptr)]. *)
Definition CreateStore (v ptr : llvm.Value) : M unit :=
  emit (llvm.Store v ptr).

(** [builder.CreateLoad(ptr, name)]: the result has the pointee type. *)
Definition CreateLoad (ptr : llvm.Value) (name : string) : M llvm.Value :=
  result <- fresh (match llvm.TypeOf ptr with
                   | llvm.PointerType t => t
                   | _ => llvm.VoidType
                   end) ;;
  emit (llvm.Load result ptr) ;;
  ret result.

(** [builder.CreateInsertValue(agg, v, index, name)]: the result has the
    type of the aggregate. *)
Definition CreateInsertValue (agg v : llvm.Value) (index : Z)
    (name : string) : M llvm.Value :=
  result <- fresh (llvm.TypeOf agg) ;;
  emit (llvm.InsertValue result agg v index) ;;
  ret result.

(** ** The compiler's services *)

Definition basicName (k : BasicKind) : string :=
  match k with
  | Invalid => "invalid type"
  | Bool => "bool"
  | Int => "int" | Int8 => "int8" | Int16 => "int16"
  | Int32 => "int32" | Int64 => "int64"
  | Uint => "uint" | Uint8 => "uint8" | Uint16 => "uint16"
  | Uint32 => "uint32" | Uint64 => "uint64" | Uintptr => "uintptr"
  | Float32 => "float32" | Float64 => "float64"
  | Complex64 => "complex64" | Complex128 => "complex128"
  | String => "string"
  | UnsafePointer => "unsafe.Pointer"
  | UntypedBool => "untyped bool" | UntypedInt => "untyped int"
  | UntypedRune => "untyped rune" | UntypedFloat => "untyped float"
  | UntypedComplex => "untyped complex"
  | UntypedString => "untyped string" | UntypedNil => "untyped nil"
  end.

Definition join (sep : string) (l : list string) : string :=
  match l with
  | [] => ""
  | x :: rest => fold_left (fun acc y => acc ++ sep ++ y) rest x
  end%string.

(** [Type.String()], the rendering of a type that ends the diagnostic. *)
Fixpoint TypeString (t : Type_) : string :=
  (match t with
   | Basic k => basicName k
   | Pointer e => "*" ++ TypeString e
   | Struct fs =>
       "struct{" ++
       join "; " ((fix each (l : list (string * Type_)) : list string :=
                     match l with
                     | [] => []
                     | f :: rest =>
                         (fst f ++ " " ++ TypeString (snd f)) :: each rest
                     end) fs) ++ "}"
   | Array n e =>
       "[" ++ DecimalString.NilZero.string_of_int (Z.to_int n) ++ "]" ++
       TypeString e
   | Named name _ => name
   | Slice e => "[]" ++ TypeString e
   | Map k e => "map[" ++ TypeString k ++ "]" ++ TypeString e
   | Chan e => "chan " ++ TypeString e
   | Signature ps rs =>
       "func(" ++ join ", " (map TypeString ps) ++ ")" ++
       match rs with
       | [] => ""
       | [r] => " " ++ TypeString r
       | _ => " (" ++ join ", " (map TypeString rs) ++ ")"
       end
   | Interface ms => "interface{" ++ join "; " ms ++ "}"
   | Tuple vs => "(" ++ join ", " (map TypeString vs) ++ ")"
   end)%string.

Module ssa.

(** An [ssa.Value]: an SSA name with its static type. *)
Record Value : Type := mkValue { Name : string; TypeOf : types.Type_ }.

(** [ssa.MakeMap]: [Type()] is a (possibly named) map type; [Reserve] is
    the optional size hint. *)
Record MakeMap : Type := mkMakeMap {
  MakeMap_Type : types.Type_;
  Reserve : option Value;
  MakeMap_Pos : Z
}.

End ssa.

(** The frame of the function being compiled. *)
Record Frame : Type := mkFrame { locals : list (string * llvm.Value) }.

(** The receiver [c *Compiler]: the target-dependent services and the
    methods of the compiler that are defined outside map.go. *)
Record Compiler : Type := mkCompiler {
  uintptrType : llvm.Type_;
  getLLVMType : types.Type_ -> llvm.Type_;
  TypeAllocSize : llvm.Type_ -> Z;
  getValue : Frame -> ssa.Value -> llvm.Value;
  parseConvert :
    types.Type_ -> types.Type_ -> llvm.Value -> Z ->
    M (llvm.Value * option Error)
}.

Definition i8ptrType : llvm.Type_ := llvm.PointerType (llvm.IntType 8).

(** Modelled from the spec: [createTemporaryAlloca] is defined outside
    map.go.  It is the spec's [stage]: it sets aside a scratch region sized
    exactly to the type and returns the buffer handle, the addressable
    buffer pointer and the byte size. *)
Definition createTemporaryAlloca (c : Compiler) (t : llvm.Type_)
    (name : string) : M (llvm.Value * llvm.Value * llvm.Value) :=
  alloca <- fresh (llvm.PointerType t) ;;
  ptr <- fresh i8ptrType ;;
  let size := llvm.ConstInt (llvm.IntType 64) (TypeAllocSize c t) false in
  emit (llvm.TemporaryAlloca alloca ptr size name) ;;
  ret (alloca, ptr, size).

(** Modelled from the spec: [emitLifetimeEnd] is defined outside map.go.
    It is the spec's [release]: the buffer's lifetime ends. *)
Definition emitLifetimeEnd (ptr size : llvm.Value) : M unit :=
  emit (llvm.LifetimeEnd ptr size).

(** Modelled from the spec: the result column of the runtime call
    contract.  [create] returns the handle, the two [get] entry points
    return the found flag, the others return nothing. *)
Definition runtimeResult (fn : string) : llvm.Type_ :=
  if (fn =? "hashmapMake")%string then i8ptrType
  else if (fn =? "hashmapStringGet")%string then llvm.IntType 1
  else if (fn =? "hashmapBinaryGet")%string then llvm.IntType 1
  else llvm.VoidType.

(** Modelled from the spec: [createRuntimeCall] is defined outside map.go.
    It emits one call to the named runtime entry point and returns the
    call's result. *)
Definition createRuntimeCall (fn : string) (args : list llvm.Value)
    (name : string) : M llvm.Value :=
  result <- fresh (runtimeResult fn) ;;
  emit (llvm.Call result fn args) ;;
  ret result.

(** ** The four lowering procedures *)

Definition unsupportedKey : string :=
  "only strings, bools, ints, pointers or structs of bools/ints are supported as map keys, but got: ".

(** [emitMakeMap] creates a new map object (runtime.hashmap).  The type
    assertion on the expression's type panics when it is not a map. *)
Definition emitMakeMap (c : Compiler) (frame : Frame) (expr : ssa.MakeMap)
    : M (llvm.Value * option Error) :=
  match Underlying (ssa.MakeMap_Type expr) with
  | Map key elem =>
      let llvmKeyType := getLLVMType c (Underlying key) in
      let llvmValueType := getLLVMType c (Underlying elem) in
      let keySize := TypeAllocSize c llvmKeyType in
      let valueSize := TypeAllocSize c llvmValueType in
      let llvmKeySize := llvm.ConstInt (llvm.IntType 8) keySize false in
      let llvmValueSize := llvm.ConstInt (llvm.IntType 8) valueSize false in
      let sizeHint := llvm.ConstInt (uintptrType c) 8 false in
      let call sizeHint :=
        hashmap <- createRuntimeCall "hashmapMake"
                     [llvmKeySize; llvmValueSize; sizeHint] "" ;;
        ret (hashmap, None) in
      match ssa.Reserve expr with
      | Some reserve =>
          let sizeHint := getValue c frame reserve in
          '(sizeHint, err) <- parseConvert c (ssa.TypeOf reserve)
                                (Basic Uintptr) sizeHint
                                (ssa.MakeMap_Pos expr) ;;
          match err with
          | Some err => ret (llvm.Nil, Some err)
          | None => call sizeHint
          end
      | None => call sizeHint
      end
  | _ => panic
  end.

(** [emitMapLookup].  The memory for the result is not zeroed: the
    hashmap get implementation zeroes it if the key is not present. *)
Definition emitMapLookup (c : Compiler) (keyType valueType : types.Type_)
    (m key : llvm.Value) (commaOk : bool) (pos : Z)
    : M (llvm.Value * option Error) :=
  let llvmValueType := getLLVMType c valueType in
  '(mapValueAlloca, mapValuePtr, mapValueSize) <-
    createTemporaryAlloca c llvmValueType "hashmap.value" ;;
  let load commaOkValue :=
    mapValue <- CreateLoad mapValueAlloca "" ;;
    emitLifetimeEnd mapValuePtr mapValueSize ;;
    if commaOk then
      let tuple :=
        llvm.Undef (llvm.StructType [llvmValueType; llvm.IntType 1] false) in
      tuple <- CreateInsertValue tuple mapValue 0 "" ;;
      tuple <- CreateInsertValue tuple commaOkValue 1 "" ;;
      ret (tuple, None)
    else ret (mapValue, None) in
  if isBasicString keyType then
    let params := [m; key; mapValuePtr] in
    commaOkValue <- createRuntimeCall "hashmapStringGet" params "" ;;
    load commaOkValue
  else if hashmapIsBinaryKey keyType then
    '(mapKeyAlloca, mapKeyPtr, mapKeySize) <-
      createTemporaryAlloca c (llvm.TypeOf key) "hashmap.key" ;;
    CreateStore key mapKeyAlloca ;;
    let params := [m; mapKeyPtr; mapValuePtr] in
    commaOkValue <- createRuntimeCall "hashmapBinaryGet" params "" ;;
    emitLifetimeEnd mapKeyPtr mapKeySize ;;
    load commaOkValue
  else
    ret (llvm.Nil,
         Some (makeError pos (unsupportedKey ++ TypeString keyType))).

(** [emitMapUpdate]. *)
Definition emitMapUpdate (c : Compiler) (keyType : types.Type_)
    (m key value : llvm.Value) (pos : Z) : M unit :=
  '(valueAlloca, valuePtr, valueSize) <-
    createTemporaryAlloca c (llvm.TypeOf value) "hashmap.value" ;;
  CreateStore value valueAlloca ;;
  let keyType := Underlying keyType in
  (if isBasicString keyType then
     let params := [m; key; valuePtr] in
     createRuntimeCall "hashmapStringSet" params "" ;;
     ret tt
   else if hashmapIsBinaryKey keyType then
     '(keyAlloca, keyPtr, keySize) <-
       createTemporaryAlloca c (llvm.TypeOf key) "hashmap.key" ;;
     CreateStore key keyAlloca ;;
     let params := [m; keyPtr; valuePtr] in
     createRuntimeCall "hashmapBinarySet" params "" ;;
     emitLifetimeEnd keyPtr keySize
   else
     addError pos (unsupportedKey ++ TypeString keyType)) ;;
  emitLifetimeEnd valuePtr valueSize.

(** [emitMapDelete]. *)
Definition emitMapDelete (c : Compiler) (keyType : types.Type_)
    (m key : llvm.Value) (pos : Z) : M (option Error) :=
  let keyType := Underlying keyType in
  if isBasicString keyType then
    let params := [m; key] in
    createRuntimeCall "hashmapStringDelete" params "" ;;
    ret None
  else if hashmapIsBinaryKey keyType then
    '(keyAlloca, keyPtr, keySize) <-
      createTemporaryAlloca c (llvm.TypeOf key) "hashmap.key" ;;
    CreateStore key keyAlloca ;;
    let params := [m; keyPtr] in
    createRuntimeCall "hashmapBinaryDelete" params "" ;;
    emitLifetimeEnd keyPtr keySize ;;
    ret None
  else
    ret (Some (makeError pos (unsupportedKey ++ TypeString keyType))).

(** ** The key class a procedure acts on *)

Inductive KeyClass : Type := Unsupported | StringKey | BinaryKey.

Definition isBinaryKey (k : KeyClass) : bool :=
  match k with BinaryKey => true | _ => false end.

(** The [if / else if / else] chain the three dispatching procedures
    share, read as a class. *)
Definition classify (keyType : Type_) : KeyClass :=
  if isBasicString keyType then StringKey
  else if hashmapIsBinaryKey keyType then BinaryKey
  else Unsupported.

Inductive Operation : Type := Lookup | Update | Delete.

(** The class an operation acts on: [emitMapUpdate] and [emitMapDelete]
    replace the key type by its underlying type before the chain,
    [emitMapLookup] does not. *)
Definition keyClass (op : Operation) (keyType : Type_) : KeyClass :=
  match op with
  | Lookup => classify keyType
  | Update | Delete => classify (Underlying keyType)
  end.

Definition hasInfo (k : BasicKind) (flags : Z) : bool :=
  negb (Z.land (Info k) flags =? 0).

(** ** Reading the emitted code *)

(** The runtime entry points called, in order. *)
Definition calls (l : list llvm.Instr) : list string :=
  flat_map (fun i => match i with
                     | llvm.Call _ fn _ => [fn]
                     | _ => []
                     end) l.

(** The buffers staged, by their pointer. *)
Definition staged (l : list llvm.Instr) : list llvm.Value :=
  flat_map (fun i => match i with
                     | llvm.TemporaryAlloca _ ptr _ _ => [ptr]
                     | _ => []
                     end) l.

(** The buffers released, by their pointer. *)
Definition released (l : list llvm.Instr) : list llvm.Value :=
  flat_map (fun i => match i with
                     | llvm.LifetimeEnd ptr _ => [ptr]
                     | _ => []
                     end) l.

(** A value that exists and has the given type. *)
Definition hasType (v : llvm.Value) (t : llvm.Type_) : Prop :=
  llvm.IsNil v = false /\ llvm.TypeOf v = t.

(** The runtime entry point an operation calls for a key class. *)
Definition entryPoint (op : Operation) (k : KeyClass) : list string :=
  match k, op with
  | Unsupported, _ => []
  | StringKey, Lookup => ["hashmapStringGet"]
  | StringKey, Update => ["hashmapStringSet"]
  | StringKey, Delete => ["hashmapStringDelete"]
  | BinaryKey, Lookup => ["hashmapBinaryGet"]
  | BinaryKey, Update => ["hashmapBinarySet"]
  | BinaryKey, Delete => ["hashmapBinaryDelete"]
  end.

(** The tail every successful lookup ends with. *)
Definition lookupResult (llvmValueType : llvm.Type_) (commaOk : bool)
    (mapValue commaOkValue : llvm.Value) (k : nat)
    : llvm.Value * list llvm.Instr * nat :=
  let pair := llvm.StructType [llvmValueType; llvm.IntType 1] false in
  if commaOk then
    (llvm.Reg (S k) pair,
     [llvm.InsertValue (llvm.Reg k pair) (llvm.Undef pair) mapValue 0;
      llvm.InsertValue (llvm.Reg (S k) pair) (llvm.Reg k pair)
        commaOkValue 1],
     S (S k))
  else (mapValue, [], k).

(** The result the specification promises for a failed lookup: a value of
    the map's value type, or of the pair type when the flag is asked
    for. *)
Definition placeholder (c : Compiler) (valueType : Type_) (commaOk : bool)
    (result : llvm.Value) : Prop :=
  hasType result
    (if commaOk
     then llvm.StructType [getLLVMType c valueType; llvm.IntType 1] false
     else getLLVMType c valueType).

(** ** Running the emitted code against the runtime contract *)

Module machine.

(** What a register or a buffer holds when the compiled code runs. *)
Inductive Val : Type :=
| Undefined
| Int (n : Z)
| Bytes (bs : list byte)
| Flag (b : bool)
| Addr (buffer : nat)
| Tuple (fields : list Val).

(** Modelled from the spec: the runtime hash table is not part of map.go.
    It is an opaque service: [contents h k] is the value stored in the map
    [h] under the key [k], if any, and [valueSize h] is the value size the
    map was created with. *)
Record Runtime : Type := mkRuntime {
  contents : Val -> Val -> option (list byte);
  valueSize : Val -> nat
}.

Record Machine : Type := mkMachine {
  regs : nat -> Val;
  (** [None]: no live buffer; a staged buffer starts [Undefined]. *)
  mem : nat -> option Val
}.

Definition upd {A} (f : nat -> A) (k : nat) (a : A) : nat -> A :=
  fun x => if Nat.eqb x k then a else f x.

Definition undefOf (t : llvm.Type_) : Val :=
  match t with
  | llvm.StructType elems _ => Tuple (List.map (fun _ => Undefined) elems)
  | _ => Undefined
  end.

Definition eval (sigma : Machine) (v : llvm.Value) : Val :=
  match v with
  | llvm.Nil => Undefined
  | llvm.Const _ n => Int n
  | llvm.Undef t => undefOf t
  | llvm.Reg id _ => regs sigma id
  end.

Fixpoint setNth (l : list Val) (i : nat) (v : Val) : list Val :=
  match l, i with
  | [], _ => []
  | _ :: rest, O => v :: rest
  | x :: rest, S j => x :: setNth rest j v
  end.

Definition insertField (agg : Val) (index : Z) (v : Val) : Val :=
  match agg with
  | Tuple fields => Tuple (setNth fields (Z.to_nat index) v)
  | _ => Undefined
  end.

Definition setReg (sigma : Machine) (result : llvm.Value) (v : Val)
    : Machine :=
  match result with
  | llvm.Reg r _ => mkMachine (upd (regs sigma) r v) (mem sigma)
  | _ => sigma
  end.

Definition setMem (sigma : Machine) (ptr : Val) (v : option Val)
    : Machine :=
  match ptr with
  | Addr b => mkMachine (regs sigma) (upd (mem sigma) b v)
  | _ => sigma
  end.

Definition load (sigma : Machine) (ptr : Val) : Val :=
  match ptr with
  | Addr b => match mem sigma b with Some v => v | None => Undefined end
  | _ => Undefined
  end.

(** Modelled from the spec: the two get entry points.  They return the
    found flag, and leave in the result buffer the stored value, or zero
    bytes of the value's size when the key is absent. *)
Definition hashmapGet (rt : Runtime) (sigma : Machine)
    (result : llvm.Value) (h k out : Val) : Machine :=
  match contents rt h k with
  | Some v => setReg (setMem sigma out (Some (Bytes v))) result (Flag true)
  | None =>
      setReg (setMem sigma out (Some (Bytes (repeat x00 (valueSize rt h)))))
             result (Flag false)
  end.

(** One instruction.  Of the runtime entry points only the two get entry
    points are run; the others leave the machine as it is. *)
Definition step (rt : Runtime) (sigma : Machine) (i : llvm.Instr)
    : Machine :=
  match i with
  | llvm.TemporaryAlloca (llvm.Reg a ta) ptr _ _ =>
      setMem (setReg (setReg sigma (llvm.Reg a ta) (Addr a)) ptr (Addr a))
             (Addr a) (Some Undefined)
  | llvm.TemporaryAlloca _ _ _ _ => sigma
  | llvm.LifetimeEnd ptr _ => setMem sigma (eval sigma ptr) None
  | llvm.Store v ptr => setMem sigma (eval sigma ptr) (Some (eval sigma v))
  | llvm.Load result ptr => setReg sigma result (load sigma (eval sigma ptr))
  | llvm.InsertValue result agg v index =>
      setReg sigma result (insertField (eval sigma agg) index (eval sigma v))
  | llvm.Convert result v => setReg sigma result (eval sigma v)
  | llvm.Call result fn args =>
      match args with
      | [h; k; out] =>
          if (fn =? "hashmapStringGet")%string then
            hashmapGet rt sigma result (eval sigma h) (eval sigma k)
                       (eval sigma out)
          else if (fn =? "hashmapBinaryGet")%string then
            hashmapGet rt sigma result (eval sigma h)
                       (load sigma (eval sigma k)) (eval sigma out)
          else sigma
      | _ => sigma
      end
  end.

Definition run (rt : Runtime) (l : list llvm.Instr) (sigma : Machine)
    : Machine :=
  fold_left (step rt) l sigma.

(** What a lookup of [k] in [h] is to produce. *)
Definition lookupValue (rt : Runtime) (h k : Val) : Val :=
  match contents rt h k with
  | Some v => Bytes v
  | None => Bytes (repeat x00 (valueSize rt h))
  end.

Definition lookupFound (rt : Runtime) (h k : Val) : bool :=
  match contents rt h k with Some _ => true | None => false end.

End machine.

(** An operand that was there before the register [n] was handed out. *)
Definition definedBefore (n : nat) (v : llvm.Value) : Prop :=
  match v with
  | llvm.Reg id _ => (id < n)%nat
  | _ => True
  end.

(** The instructions a procedure added to the state it started from. *)
Definition emitted (s s' : State) : list llvm.Instr :=
  skipn (List.length (insts s)) (insts s').

(** ** An example target

    A 32-bit target, as the linker script for the Game Boy Advance that
    comes with the compiler describes: [uintptr] is 32 bits wide. *)
Module gba.

Definition basicType (k : BasicKind) : llvm.Type_ :=
  match k with
  | Bool | UntypedBool => llvm.IntType 1
  | Int8 | Uint8 => llvm.IntType 8
  | Int16 | Uint16 => llvm.IntType 16
  | Int | Uint | Uintptr | Int32 | Uint32 | UntypedInt | UntypedRune =>
      llvm.IntType 32
  | Int64 | Uint64 => llvm.IntType 64
  | Float32 => llvm.FloatType
  | Float64 | UntypedFloat => llvm.DoubleType
  | Complex64 => llvm.StructType [llvm.FloatType; llvm.FloatType] false
  | Complex128 | UntypedComplex =>
      llvm.StructType [llvm.DoubleType; llvm.DoubleType] false
  | String | UntypedString =>
      llvm.StructType [i8ptrType; llvm.IntType 32] false
  | UnsafePointer | UntypedNil | Invalid => i8ptrType
  end.

Fixpoint getLLVMType (t : types.Type_) : llvm.Type_ :=
  match t with
  | Basic k => basicType k
  | Pointer e => llvm.PointerType (getLLVMType e)
  | Struct fs =>
      llvm.StructType
        ((fix each (l : list (string * Type_)) : list llvm.Type_ :=
            match l with
            | [] => []
            | f :: rest => getLLVMType (snd f) :: each rest
            end) fs) false
  | Array n e => llvm.ArrayType (getLLVMType e) n
  | Named _ u => getLLVMType u
  | _ => i8ptrType
  end.

(** Sizes in bytes, fields laid out one after the other. *)
Fixpoint TypeAllocSize (t : llvm.Type_) : Z :=
  match t with
  | llvm.VoidType => 0
  | llvm.IntType bits => (bits + 7) / 8
  | llvm.FloatType => 4
  | llvm.DoubleType => 8
  | llvm.PointerType _ => 4
  | llvm.ArrayType e n => n * TypeAllocSize e
  | llvm.StructType es _ => fold_right (fun e acc => TypeAllocSize e + acc) 0 es
  end.

Definition getValue (frame : Frame) (v : ssa.Value) : llvm.Value :=
  match find (fun l => (fst l =? ssa.Name v)%string) (locals frame) with
  | Some l => snd l
  | None => llvm.Undef (getLLVMType (ssa.TypeOf v))
  end.

(** Modelled from the spec: [parseConvert] is defined outside map.go.  A
    supplied size hint is converted to the runtime's native size-word
    type; the conversion is one instruction whose result has the type
    asked for. *)
Definition parseConvert (typeFrom typeTo : types.Type_) (value : llvm.Value)
    (pos : Z) : M (llvm.Value * option Error) :=
  result <- fresh (getLLVMType typeTo) ;;
  emit (llvm.Convert result value) ;;
  ret (result, None).

Definition compiler : Compiler :=
  mkCompiler (llvm.IntType 32) getLLVMType TypeAllocSize getValue
             parseConvert.

(** A function body in progress: two operands, the map [m] and the key
    or size [x], are already there. *)
Definition m : llvm.Value := llvm.Reg 0 i8ptrType.
Definition start : State := mkState [] 2 [].

(** A runtime whose maps are all empty, with values of 4 bytes, and a
    machine in which nothing is defined yet. *)
Definition emptyMaps : machine.Runtime :=
  machine.mkRuntime (fun _ _ => None) (fun _ => 4%nat).
Definition boot : machine.Machine :=
  machine.mkMachine (fun _ => machine.Undefined) (fun _ => None).

End gba.

(** ** FNV-1a as the specification words it

    Start from the offset basis; for each byte, left to right, XOR the
    byte into the accumulator and then multiply by the prime, in 32-bit
    arithmetic; nothing is done at the end. *)

Definition fnvOffsetBasis : Z := 2166136261.
Definition fnvPrime : Z := 16777619.

Definition fnvStep (acc : Z) (b : byte) : Z :=
  (Z.lxor acc (byteZ b) * fnvPrime) mod 2 ^ 32.

Fixpoint fnv1a (acc : Z) (bytes : list byte) : Z :=
  match bytes with
  | [] => acc
  | b :: rest => fnv1a (fnvStep acc b) rest
  end.

Definition contentHash (bytes : list byte) : Z := fnv1a fnvOffsetBasis bytes.

(** ** Definitions for the further properties *)

(** The inverse of the FNV prime modulo 2^32. *)
Definition fnvPrimeInverse : Z := 899433627.

(** The types a key type is made of: what is reached through struct
    fields, array elements and the underlying types of named types. *)
Fixpoint leaves (t : Type_) : list Type_ :=
  match t with
  | Struct fields =>
      (fix each (fs : list (string * Type_)) : list Type_ :=
         match fs with
         | [] => []
         | f :: rest => leaves (snd f) ++ each rest
         end) fields
  | Array _ elem => leaves elem
  | Named _ u => leaves u
  | _ => [t]
  end.

(** A boolean, an integer or a pointer. *)
Definition binaryLeaf (t : Type_) : bool :=
  match t with
  | Basic k => hasInfo k (Z.lor IsBoolean IsInteger)
  | Pointer _ => true
  | _ => false
  end.






(** The key as a runtime entry point sees it: the argument itself when
    the key is passed by value, what the argument points to otherwise. *)
Definition seenKey (byValue : bool) (sigma : machine.Machine)
    (arg : llvm.Value) : machine.Val :=
  if byValue then machine.eval sigma arg
  else machine.load sigma (machine.eval sigma arg).

(** A pointer to a buffer that is no longer live. *)
Definition deadBuffer (sigma : machine.Machine) (ptr : llvm.Value) : Prop :=
  exists b, machine.eval sigma ptr = machine.Addr b /\
            machine.mem sigma b = None.

(** Nothing that was there before register [n] was handed out has
    changed, and every buffer staged by the instructions is dead. *)
Definition cleanRun (n : nat) (l : list llvm.Instr)
    (sigma sigma' : machine.Machine) : Prop :=
  (forall r, (r < n)%nat -> machine.regs sigma' r = machine.regs sigma r) /\
  (forall b, (b < n)%nat -> machine.mem sigma' b = machine.mem sigma b) /\
  (forall ptr, In ptr (staged l) -> deadBuffer sigma' ptr).

(** A conversion that accepts integer size hints only, and the example
    compiler with it. *)
Definition strictConvert (typeFrom typeTo : types.Type_)
    (value : llvm.Value) (pos : Z) : M (llvm.Value * option Error) :=
  match Underlying typeFrom with
  | Basic k =>
      if hasInfo k IsInteger
      then gba.parseConvert typeFrom typeTo value pos
      else ret (llvm.Nil, Some (makeError pos "todo: convert"))
  | _ => ret (llvm.Nil, Some (makeError pos "todo: convert"))
  end.

Definition strictCompiler : Compiler :=
  mkCompiler (llvm.IntType 32) gba.getLLVMType gba.TypeAllocSize
             gba.getValue strictConvert.

(** * Proof automation *)

Ltac run_builder :=
  cbv beta iota zeta delta
    [bind ret fresh emit panic addError
     createTemporaryAlloca emitLifetimeEnd createRuntimeCall
     CreateStore CreateLoad CreateInsertValue
     insts nextId diagnostics];
  repeat rewrite <- app_assoc; cbn [app].

(** * Properties *)

(** ** The hash helpers *)

Lemma byteZ_range (b : byte) : 0 <= byteZ b < 256.
Proof.
  unfold byteZ. pose proof (Byte.to_N_bounded b). lia.
Qed.

Lemma uint32_byteZ (b : byte) : uint32 (byteZ b) = byteZ b.
Proof.
  unfold uint32. apply Z.mod_small.
  pose proof (byteZ_range b). lia.
Qed.

Lemma fold_is_fnv1a (data : list byte) (acc : Z) :
  fold_left
    (fun result c =>
       let result := Z.lxor result (uint32 (byteZ c)) in
       uint32 (result * 16777619))
    data acc = fnv1a acc data.
Proof.
  revert acc. induction data as [|b rest IH]; intros acc;
    cbn [fold_left fnv1a].
  - reflexivity.
  - rewrite IH, uint32_byteZ. reflexivity.
Qed.

Lemma fnv1a_snoc (data : list byte) (b : byte) (acc : Z) :
  fnv1a acc (data ++ [b]) = fnvStep (fnv1a acc data) b.
Proof.
  revert acc. induction data as [|x rest IH]; intros acc; simpl.
  - reflexivity.
  - apply IH.
Qed.

Lemma fnv1a_range (data : list byte) (acc : Z) :
  0 <= acc < 2 ^ 32 -> 0 <= fnv1a acc data < 2 ^ 32.
Proof.
  revert acc. induction data as [|x rest IH]; intros acc Hacc; simpl.
  - exact Hacc.
  - apply IH. unfold fnvStep. apply Z.mod_pos_bound. lia.
Qed.

(** C6: [hashmapHash] is FNV-1a over the bytes, left to right, in 32-bit
    wrap-around arithmetic: it is the offset basis 2166136261 on the empty
    sequence, each further byte is XORed into the accumulator, which is
    then multiplied by the prime 16777619, and nothing is done at the end;
    the result is a 32-bit value. *)
Theorem hashmapHash_is_fnv1a :
  hashmapHash [] = 2166136261 /\
  (forall data b,
     hashmapHash (data ++ [b]) =
     (Z.lxor (hashmapHash data) (byteZ b) * 16777619) mod 2 ^ 32) /\
  (forall data, hashmapHash data = contentHash data) /\
  (forall data, 0 <= hashmapHash data < 2 ^ 32).
Proof.
  split; [reflexivity|]. split; [|split].
  - intros data b. unfold hashmapHash.
    rewrite !fold_is_fnv1a. apply fnv1a_snoc.
  - intros data. unfold hashmapHash. apply fold_is_fnv1a.
  - intros data. unfold hashmapHash. rewrite fold_is_fnv1a.
    apply fnv1a_range. lia.
Qed.

(** The published FNV-1a test vectors for "a" and "foobar". *)
Example hashmapHash_vectors :
  hashmapHash [x61] = 0xe40c292c /\
  hashmapHash [x66; x6f; x6f; x62; x61; x72] = 0xbf9cf968.
Proof. split; vm_compute; reflexivity. Qed.

Lemma top_byte_range (h : Z) :
  0 <= h < 2 ^ 32 -> 0 <= Z.shiftr h 24 < 256.
Proof.
  intros Hh. rewrite Z.shiftr_div_pow2 by lia.
  split.
  - apply Z.div_pos; lia.
  - apply Z.div_lt_upper_bound; lia.
Qed.

(** C5: for a 32-bit [h], [hashmapTopHash h] is never 0: it is 1 when the
    top 8 bits of [h] are 0, and the top 8 bits of [h] otherwise. *)
Theorem hashmapTopHash_never_zero (h : Z) :
  0 <= h < 2 ^ 32 ->
  hashmapTopHash h <> 0 /\
  (Z.shiftr h 24 = 0 -> hashmapTopHash h = 1) /\
  (Z.shiftr h 24 <> 0 ->
   hashmapTopHash h = uint8 (Z.shiftr h 24) /\
   hashmapTopHash h = Z.shiftr h 24).
Proof.
  intros Hh. pose proof (top_byte_range h Hh) as Htop.
  unfold hashmapTopHash.
  assert (Hu : uint8 (Z.shiftr h 24) = Z.shiftr h 24)
    by (unfold uint8; apply Z.mod_small; lia).
  rewrite Hu.
  destruct (Z.ltb_spec (Z.shiftr h 24) 1) as [Hlt|Hge].
  - assert (Hz : Z.shiftr h 24 = 0) by lia. rewrite Hz.
    split; [vm_compute; discriminate|].
    split; [intros _; reflexivity | intros Hne; now elim Hne].
  - split; [lia|].
    split; [lia | intros _; split; reflexivity].
Qed.

Lemma hashmapTopHash_never_zero_witness :
  0 <= 5 < 2 ^ 32 /\ hashmapTopHash 5 = 1 /\
  hashmapTopHash 0xab000000 = 0xab.
Proof.
  split; [lia|]. split.
  - apply (hashmapTopHash_never_zero 5); [lia | reflexivity].
  - apply (hashmapTopHash_never_zero 0xab000000); [lia | discriminate].
Defined.

(** ** The key test and the key classes *)

Lemma hashmapIsBinaryKey_Underlying (T : Type_) :
  hashmapIsBinaryKey (Underlying T) = hashmapIsBinaryKey T.
Proof. destruct T; reflexivity. Qed.

Lemma string_is_not_binary (T : Type_) :
  isBasicString T = true -> hashmapIsBinaryKey T = false.
Proof.
  destruct T as [k| | | | | | | | | |]; try discriminate.
  destruct k; vm_compute; congruence.
Qed.

Lemma isBinaryKey_classify (T : Type_) :
  isBinaryKey (classify T) = hashmapIsBinaryKey T.
Proof.
  unfold classify.
  destruct (isBasicString T) eqn:Hs.
  - now rewrite (string_is_not_binary T Hs).
  - now destruct (hashmapIsBinaryKey T).
Qed.

Lemma isBinaryKey_keyClass (op : Operation) (T : Type_) :
  isBinaryKey (keyClass op T) = hashmapIsBinaryKey T.
Proof.
  destruct op; cbn [keyClass]; rewrite isBinaryKey_classify;
    auto using hashmapIsBinaryKey_Underlying.
Qed.

Lemma classify_not_string (T : Type_) :
  isBasicString T = false ->
  classify T = if hashmapIsBinaryKey T then BinaryKey else Unsupported.
Proof. intros H. unfold classify. now rewrite H. Qed.

Lemma hashmapIsBinaryKey_Struct (fs : list (string * Type_)) :
  hashmapIsBinaryKey (Struct fs) =
  forallb (fun f => hashmapIsBinaryKey (Underlying (snd f))) fs.
Proof.
  induction fs as [|f rest IH].
  - reflexivity.
  - cbn [forallb]. rewrite <- IH. cbn.
    now destruct (hashmapIsBinaryKey (Underlying (snd f))).
Qed.

Lemma Underlying_not_named (T : Type_) :
  isNamed T = false -> Underlying T = T.
Proof. destruct T; try reflexivity; discriminate. Qed.

(** The array row of the table, as the specification states it, fails on
    every operation: an array of strings is not string-keyed. *)
Lemma array_of_strings_is_unsupported :
  keyClass Lookup (Array 4 (Basic String)) <> keyClass Lookup (Basic String) /\
  keyClass Update (Array 4 (Basic String)) <> keyClass Update (Basic String) /\
  keyClass Delete (Array 4 (Basic String)) <> keyClass Delete (Basic String) /\
  keyClass Update (Array 4 (Basic String)) = Unsupported /\
  keyClass Update (Basic String) = StringKey.
Proof. repeat split; vm_compute; discriminate. Qed.

(** C1 (amended): the class of a key type is a function of the type, and
    follows this table on every operation: a basic string is StringKey; a
    boolean or an integer of any width is BinaryKey; a pointer is
    BinaryKey; a struct is BinaryKey if every field, taken at its
    underlying type, is BinaryKey, and Unsupported otherwise; an array is
    BinaryKey if its element is BinaryKey and Unsupported otherwise, so an
    array of strings is Unsupported; a named type has the class of its
    underlying type in update and delete, and in lookup when that class
    is not StringKey; floating-point types, interfaces, slices, maps and
    functions are Unsupported. *)
Theorem keyClass_table (op : Operation) :
  (forall T, exists! k, keyClass op T = k) /\
  (forall k, hasInfo k IsString = true ->
             keyClass op (Basic k) = StringKey) /\
  (forall k, hasInfo k (Z.lor IsBoolean IsInteger) = true ->
             keyClass op (Basic k) = BinaryKey) /\
  (forall e, keyClass op (Pointer e) = BinaryKey) /\
  (forall fs,
     keyClass op (Struct fs) =
     if forallb (fun f => isBinaryKey (keyClass op (Underlying (snd f)))) fs
     then BinaryKey else Unsupported) /\
  (forall n e,
     keyClass op (Array n e) =
     if isBinaryKey (keyClass op e) then BinaryKey else Unsupported) /\
  (forall name u,
     isNamed u = false ->
     (op = Lookup -> keyClass op u <> StringKey) ->
     keyClass op (Named name u) = keyClass op u) /\
  (forall k, hasInfo k IsFloat = true ->
             keyClass op (Basic k) = Unsupported) /\
  (forall ms, keyClass op (Interface ms) = Unsupported) /\
  (forall e, keyClass op (Slice e) = Unsupported) /\
  (forall k e, keyClass op (Map k e) = Unsupported) /\
  (forall ps rs, keyClass op (Signature ps rs) = Unsupported).
Proof.
  split.
  { intros T. exists (keyClass op T). split; [reflexivity | auto]. }
  split.
  { intros k Hk. destruct op; destruct k; try discriminate Hk; reflexivity. }
  split.
  { intros k Hk. destruct op; destruct k; try discriminate Hk; reflexivity. }
  split.
  { intros e. destruct op; reflexivity. }
  split.
  { intros fs.
    assert (Hc : keyClass op (Struct fs) = classify (Struct fs))
      by (destruct op; reflexivity).
    rewrite Hc, classify_not_string by reflexivity.
    rewrite hashmapIsBinaryKey_Struct.
    replace (forallb (fun f => isBinaryKey (keyClass op (Underlying (snd f)))) fs)
      with (forallb (fun f => hashmapIsBinaryKey (Underlying (snd f))) fs);
      [reflexivity|].
    clear Hc. induction fs as [|f rest IH]; [reflexivity|].
    cbn [forallb]. rewrite IH, isBinaryKey_keyClass.
    reflexivity. }
  split.
  { intros n e.
    assert (Hc : keyClass op (Array n e) = classify (Array n e))
      by (destruct op; reflexivity).
    rewrite Hc, classify_not_string by reflexivity.
    now rewrite isBinaryKey_keyClass. }
  split.
  { intros name u Hu Hlookup. destruct op; cbn [keyClass Underlying].
    - specialize (Hlookup eq_refl). cbn [keyClass] in Hlookup.
      rewrite classify_not_string by reflexivity.
      unfold classify in *. cbn [hashmapIsBinaryKey Underlying].
      destruct (isBasicString u); [congruence | reflexivity].
    - now rewrite (Underlying_not_named u Hu).
    - now rewrite (Underlying_not_named u Hu). }
  split.
  { intros k Hk. destruct op; destruct k; try discriminate Hk; reflexivity. }
  repeat split; intros; destruct op; reflexivity.
Qed.

Lemma keyClass_table_witness :
  keyClass Update (Basic Int32) = BinaryKey /\
  keyClass Lookup (Basic UntypedString) = StringKey /\
  keyClass Delete (Named "main.Name" (Basic String)) =
  keyClass Delete (Basic String) /\
  keyClass Lookup (Named "main.ID" (Basic Uint64)) =
  keyClass Lookup (Basic Uint64) /\
  keyClass Update (Basic Float64) = Unsupported.
Proof.
  split.
  { destruct (keyClass_table Update) as (_ & _ & H & _).
    apply H. reflexivity. }
  split.
  { destruct (keyClass_table Lookup) as (_ & H & _).
    apply H. reflexivity. }
  split.
  { destruct (keyClass_table Delete) as (_ & _ & _ & _ & _ & _ & H & _).
    apply H; [reflexivity | discriminate]. }
  split.
  { destruct (keyClass_table Lookup) as (_ & _ & _ & _ & _ & _ & H & _).
    apply H; [reflexivity | intros _; discriminate]. }
  destruct (keyClass_table Update) as (_ & _ & _ & _ & _ & _ & _ & H & _).
  apply H. reflexivity.
Defined.

(** ** What the dispatching procedures emit *)

Section Emitted.

Variable c : Compiler.
Variables m key : llvm.Value.
Variable pos : Z.
Variable s : State.

Let n : nat := nextId s.
Let i64 (z : Z) : llvm.Value := llvm.ConstInt (llvm.IntType 64) z false.
Let keySize : llvm.Value := i64 (TypeAllocSize c (llvm.TypeOf key)).
Let unsupported (T : Type_) : Error :=
  makeError pos (unsupportedKey ++ TypeString T).

Lemma emitMapLookup_string (T valueType : Type_) (commaOk : bool) :
  isBasicString T = true ->
  let vt := getLLVMType c valueType in
  let alloca := llvm.Reg n (llvm.PointerType vt) in
  let ptr := llvm.Reg (1 + n) i8ptrType in
  let size := i64 (TypeAllocSize c vt) in
  let flag := llvm.Reg (2 + n) (llvm.IntType 1) in
  let value := llvm.Reg (3 + n) vt in
  let '(result, tail, next) := lookupResult vt commaOk value flag (4 + n) in
  emitMapLookup c T valueType m key commaOk pos s =
  Some (result, None,
        mkState (insts s ++
                 [llvm.TemporaryAlloca alloca ptr size "hashmap.value";
                  llvm.Call flag "hashmapStringGet" [m; key; ptr];
                  llvm.Load value alloca;
                  llvm.LifetimeEnd ptr size] ++ tail)
                next (diagnostics s)).
Proof.
  intros HT. unfold emitMapLookup, lookupResult. rewrite HT.
  destruct commaOk; run_builder; reflexivity.
Qed.

Lemma emitMapLookup_binary (T valueType : Type_) (commaOk : bool) :
  isBasicString T = false ->
  hashmapIsBinaryKey T = true ->
  let vt := getLLVMType c valueType in
  let alloca := llvm.Reg n (llvm.PointerType vt) in
  let ptr := llvm.Reg (1 + n) i8ptrType in
  let size := i64 (TypeAllocSize c vt) in
  let keyAlloca := llvm.Reg (2 + n) (llvm.PointerType (llvm.TypeOf key)) in
  let keyPtr := llvm.Reg (3 + n) i8ptrType in
  let flag := llvm.Reg (4 + n) (llvm.IntType 1) in
  let value := llvm.Reg (5 + n) vt in
  let '(result, tail, next) := lookupResult vt commaOk value flag (6 + n) in
  emitMapLookup c T valueType m key commaOk pos s =
  Some (result, None,
        mkState (insts s ++
                 [llvm.TemporaryAlloca alloca ptr size "hashmap.value";
                  llvm.TemporaryAlloca keyAlloca keyPtr keySize "hashmap.key";
                  llvm.Store key keyAlloca;
                  llvm.Call flag "hashmapBinaryGet" [m; keyPtr; ptr];
                  llvm.LifetimeEnd keyPtr keySize;
                  llvm.Load value alloca;
                  llvm.LifetimeEnd ptr size] ++ tail)
                next (diagnostics s)).
Proof.
  intros HT HB. unfold emitMapLookup, lookupResult. rewrite HT, HB.
  destruct commaOk; run_builder; reflexivity.
Qed.

Lemma emitMapLookup_unsupported (T valueType : Type_) (commaOk : bool) :
  isBasicString T = false ->
  hashmapIsBinaryKey T = false ->
  let vt := getLLVMType c valueType in
  let alloca := llvm.Reg n (llvm.PointerType vt) in
  let ptr := llvm.Reg (1 + n) i8ptrType in
  let size := i64 (TypeAllocSize c vt) in
  emitMapLookup c T valueType m key commaOk pos s =
  Some (llvm.Nil, Some (unsupported T),
        mkState (insts s ++
                 [llvm.TemporaryAlloca alloca ptr size "hashmap.value"])
                (2 + n) (diagnostics s)).
Proof.
  intros HT HB. unfold emitMapLookup. rewrite HT, HB.
  run_builder; reflexivity.
Qed.

Lemma emitMapUpdate_string (T : Type_) (value : llvm.Value) :
  isBasicString (Underlying T) = true ->
  let alloca := llvm.Reg n (llvm.PointerType (llvm.TypeOf value)) in
  let ptr := llvm.Reg (1 + n) i8ptrType in
  let size := i64 (TypeAllocSize c (llvm.TypeOf value)) in
  emitMapUpdate c T m key value pos s =
  Some (tt,
        mkState (insts s ++
                 [llvm.TemporaryAlloca alloca ptr size "hashmap.value";
                  llvm.Store value alloca;
                  llvm.Call (llvm.Reg (2 + n) llvm.VoidType)
                    "hashmapStringSet" [m; key; ptr];
                  llvm.LifetimeEnd ptr size])
                (3 + n) (diagnostics s)).
Proof.
  intros HT. unfold emitMapUpdate. rewrite HT.
  run_builder; reflexivity.
Qed.

Lemma emitMapUpdate_binary (T : Type_) (value : llvm.Value) :
  isBasicString (Underlying T) = false ->
  hashmapIsBinaryKey (Underlying T) = true ->
  let alloca := llvm.Reg n (llvm.PointerType (llvm.TypeOf value)) in
  let ptr := llvm.Reg (1 + n) i8ptrType in
  let size := i64 (TypeAllocSize c (llvm.TypeOf value)) in
  let keyAlloca := llvm.Reg (2 + n) (llvm.PointerType (llvm.TypeOf key)) in
  let keyPtr := llvm.Reg (3 + n) i8ptrType in
  emitMapUpdate c T m key value pos s =
  Some (tt,
        mkState (insts s ++
                 [llvm.TemporaryAlloca alloca ptr size "hashmap.value";
                  llvm.Store value alloca;
                  llvm.TemporaryAlloca keyAlloca keyPtr keySize "hashmap.key";
                  llvm.Store key keyAlloca;
                  llvm.Call (llvm.Reg (4 + n) llvm.VoidType)
                    "hashmapBinarySet" [m; keyPtr; ptr];
                  llvm.LifetimeEnd keyPtr keySize;
                  llvm.LifetimeEnd ptr size])
                (5 + n) (diagnostics s)).
Proof.
  intros HT HB. unfold emitMapUpdate. rewrite HT, HB.
  run_builder; reflexivity.
Qed.

Lemma emitMapUpdate_unsupported (T : Type_) (value : llvm.Value) :
  isBasicString (Underlying T) = false ->
  hashmapIsBinaryKey (Underlying T) = false ->
  let alloca := llvm.Reg n (llvm.PointerType (llvm.TypeOf value)) in
  let ptr := llvm.Reg (1 + n) i8ptrType in
  let size := i64 (TypeAllocSize c (llvm.TypeOf value)) in
  emitMapUpdate c T m key value pos s =
  Some (tt,
        mkState (insts s ++
                 [llvm.TemporaryAlloca alloca ptr size "hashmap.value";
                  llvm.Store value alloca;
                  llvm.LifetimeEnd ptr size])
                (2 + n)
                (diagnostics s ++ [unsupported (Underlying T)])).
Proof.
  intros HT HB. unfold emitMapUpdate. rewrite HT, HB.
  run_builder; reflexivity.
Qed.

Lemma emitMapDelete_string (T : Type_) :
  isBasicString (Underlying T) = true ->
  emitMapDelete c T m key pos s =
  Some (None,
        mkState (insts s ++
                 [llvm.Call (llvm.Reg n llvm.VoidType)
                    "hashmapStringDelete" [m; key]])
                (1 + n) (diagnostics s)).
Proof.
  intros HT. unfold emitMapDelete. rewrite HT.
  run_builder; reflexivity.
Qed.

Lemma emitMapDelete_binary (T : Type_) :
  isBasicString (Underlying T) = false ->
  hashmapIsBinaryKey (Underlying T) = true ->
  let keyAlloca := llvm.Reg n (llvm.PointerType (llvm.TypeOf key)) in
  let keyPtr := llvm.Reg (1 + n) i8ptrType in
  emitMapDelete c T m key pos s =
  Some (None,
        mkState (insts s ++
                 [llvm.TemporaryAlloca keyAlloca keyPtr keySize "hashmap.key";
                  llvm.Store key keyAlloca;
                  llvm.Call (llvm.Reg (2 + n) llvm.VoidType)
                    "hashmapBinaryDelete" [m; keyPtr];
                  llvm.LifetimeEnd keyPtr keySize])
                (3 + n) (diagnostics s)).
Proof.
  intros HT HB. unfold emitMapDelete. rewrite HT, HB.
  run_builder; reflexivity.
Qed.

Lemma emitMapDelete_unsupported (T : Type_) :
  isBasicString (Underlying T) = false ->
  hashmapIsBinaryKey (Underlying T) = false ->
  emitMapDelete c T m key pos s =
  Some (Some (unsupported (Underlying T)), s).
Proof.
  intros HT HB. unfold emitMapDelete. rewrite HT, HB.
  reflexivity.
Qed.

End Emitted.

(** ** Dispatch *)

Lemma emitted_app (s : State) (l : list llvm.Instr) (n : nat)
    (d : list Error) :
  emitted s (mkState (insts s ++ l) n d) = l.
Proof.
  unfold emitted. cbn [insts].
  rewrite skipn_app, skipn_all, Nat.sub_diag. reflexivity.
Qed.

Lemma calls_app (l l' : list llvm.Instr) :
  calls (l ++ l') = calls l ++ calls l'.
Proof. apply flat_map_app. Qed.

Lemma staged_app (l l' : list llvm.Instr) :
  staged (l ++ l') = staged l ++ staged l'.
Proof. apply flat_map_app. Qed.

Lemma released_app (l l' : list llvm.Instr) :
  released (l ++ l') = released l ++ released l'.
Proof. apply flat_map_app. Qed.

Lemma classify_cases (T : Type_) :
  (classify T = StringKey /\ isBasicString T = true) \/
  (classify T = BinaryKey /\ isBasicString T = false /\
   hashmapIsBinaryKey T = true) \/
  (classify T = Unsupported /\ isBasicString T = false /\
   hashmapIsBinaryKey T = false).
Proof.
  unfold classify.
  destruct (isBasicString T); [now left|].
  destruct (hashmapIsBinaryKey T); [right; left | right; right]; auto.
Qed.

(** [emitMapLookup] never panics; it calls the entry point of the class it
    finds and returns an error exactly when the class is Unsupported. *)
Lemma emitMapLookup_dispatch (c : Compiler) (T valueType : Type_)
    (m key : llvm.Value) (commaOk : bool) (pos : Z) (s : State) :
  exists result err s',
    emitMapLookup c T valueType m key commaOk pos s =
      Some (result, err, s') /\
    calls (insts s') =
      calls (insts s) ++ entryPoint Lookup (keyClass Lookup T) /\
    (err = None <-> keyClass Lookup T <> Unsupported) /\
    diagnostics s' = diagnostics s.
Proof.
  cbn [keyClass].
  destruct (classify_cases T) as [[Hc HT]|[[Hc [HT HB]]|[Hc [HT HB]]]];
    rewrite Hc.
  - pose proof (emitMapLookup_string c m key pos s T valueType commaOk HT)
      as H.
    cbv zeta in H. destruct commaOk; cbn [lookupResult] in H;
      rewrite H; do 3 eexists; (split; [reflexivity|]);
      cbn [insts diagnostics]; rewrite calls_app;
      (split; [reflexivity|]); (split; [|reflexivity]);
      split; congruence.
  - pose proof (emitMapLookup_binary c m key pos s T valueType commaOk HT HB)
      as H.
    cbv zeta in H. destruct commaOk; cbn [lookupResult] in H;
      rewrite H; do 3 eexists; (split; [reflexivity|]);
      cbn [insts diagnostics]; rewrite calls_app;
      (split; [reflexivity|]); (split; [|reflexivity]);
      split; congruence.
  - rewrite (emitMapLookup_unsupported c m key pos s T valueType commaOk HT HB).
    do 3 eexists. split; [reflexivity|].
    cbn [insts diagnostics]. rewrite calls_app.
    split; [reflexivity|]. split; [|reflexivity].
    split; congruence.
Qed.

(** [emitMapUpdate] never panics; it calls the entry point of the class it
    finds and adds a diagnostic exactly when the class is Unsupported. *)
Lemma emitMapUpdate_dispatch (c : Compiler) (T : Type_)
    (m key value : llvm.Value) (pos : Z) (s : State) :
  exists s',
    emitMapUpdate c T m key value pos s = Some (tt, s') /\
    calls (insts s') =
      calls (insts s) ++ entryPoint Update (keyClass Update T) /\
    (diagnostics s' = diagnostics s <-> keyClass Update T <> Unsupported).
Proof.
  cbn [keyClass].
  destruct (classify_cases (Underlying T))
    as [[Hc HT]|[[Hc [HT HB]]|[Hc [HT HB]]]]; rewrite Hc.
  - rewrite (emitMapUpdate_string c m key pos s T value HT).
    eexists. split; [reflexivity|].
    cbn [insts diagnostics]. rewrite calls_app.
    split; [reflexivity|]. split; congruence.
  - rewrite (emitMapUpdate_binary c m key pos s T value HT HB).
    eexists. split; [reflexivity|].
    cbn [insts diagnostics]. rewrite calls_app.
    split; [reflexivity|]. split; congruence.
  - rewrite (emitMapUpdate_unsupported c m key pos s T value HT HB).
    eexists. split; [reflexivity|].
    cbn [insts diagnostics]. rewrite calls_app.
    split; [reflexivity|]. split; [|congruence].
    intros H. apply (f_equal (@List.length Error)) in H.
    rewrite length_app in H. cbn in H. lia.
Qed.

(** [emitMapDelete] never panics; it calls the entry point of the class it
    finds and returns an error exactly when the class is Unsupported. *)
Lemma emitMapDelete_dispatch (c : Compiler) (T : Type_)
    (m key : llvm.Value) (pos : Z) (s : State) :
  exists err s',
    emitMapDelete c T m key pos s = Some (err, s') /\
    calls (insts s') =
      calls (insts s) ++ entryPoint Delete (keyClass Delete T) /\
    (err = None <-> keyClass Delete T <> Unsupported) /\
    diagnostics s' = diagnostics s.
Proof.
  cbn [keyClass].
  destruct (classify_cases (Underlying T))
    as [[Hc HT]|[[Hc [HT HB]]|[Hc [HT HB]]]]; rewrite Hc.
  - rewrite (emitMapDelete_string c m key pos s T HT).
    do 2 eexists. split; [reflexivity|].
    cbn [insts diagnostics]. rewrite calls_app.
    split; [reflexivity|]. split; [|reflexivity]. split; congruence.
  - rewrite (emitMapDelete_binary c m key pos s T HT HB).
    do 2 eexists. split; [reflexivity|].
    cbn [insts diagnostics]. rewrite calls_app.
    split; [reflexivity|]. split; [|reflexivity]. split; congruence.
  - rewrite (emitMapDelete_unsupported c m key pos s T HT HB).
    do 2 eexists. split; [reflexivity|].
    cbn [entryPoint]. rewrite app_nil_r.
    split; [reflexivity|]. split; [|reflexivity]. split; congruence.
Qed.

(** In update and delete a named key type is dispatched as its underlying
    type is. *)
Lemma named_dispatch_update_delete (op : Operation) (T : Type_) :
  op <> Lookup ->
  isNamed (Underlying T) = false ->
  keyClass op T = keyClass op (Underlying T).
Proof.
  intros Hop HU. destruct op; [congruence| |]; cbn [keyClass];
    now rewrite (Underlying_not_named _ HU).
Qed.

(** In lookup a named key type is dispatched as its underlying type is,
    unless the underlying type is a string. *)
Lemma named_dispatch_lookup (T : Type_) :
  keyClass Lookup (Underlying T) <> StringKey ->
  keyClass Lookup T = keyClass Lookup (Underlying T).
Proof.
  cbn [keyClass]. destruct T; try reflexivity.
  cbn [Underlying]. intros H. unfold classify in *.
  cbn [isBasicString hashmapIsBinaryKey Underlying].
  destruct (isBasicString T); [congruence | reflexivity].
Qed.

(** C2: at a named type whose underlying type is [string], update and
    delete take the string-keyed entry point, as they do for [string]
    itself, but lookup, which takes the string-keyed entry point for
    [string], calls no entry point and returns the unsupported-key
    error. *)
Theorem lookup_rejects_named_string (c : Compiler) (name : string)
    (valueType : Type_) (m key value : llvm.Value) (commaOk : bool)
    (pos : Z) (s : State) :
  let N := Named name (Basic String) in
  keyClass Update N = keyClass Update (Underlying N) /\
  keyClass Delete N = keyClass Delete (Underlying N) /\
  keyClass Lookup (Underlying N) = StringKey /\
  keyClass Lookup N = Unsupported /\
  (exists s',
     emitMapLookup c N valueType m key commaOk pos s =
       Some (llvm.Nil, Some (makeError pos (unsupportedKey ++ name)), s') /\
     calls (insts s') = calls (insts s)) /\
  (exists result s',
     emitMapLookup c (Underlying N) valueType m key commaOk pos s =
       Some (result, None, s') /\
     calls (insts s') = calls (insts s) ++ ["hashmapStringGet"]) /\
  (exists s',
     emitMapUpdate c N m key value pos s = Some (tt, s') /\
     calls (insts s') = calls (insts s) ++ ["hashmapStringSet"] /\
     diagnostics s' = diagnostics s) /\
  (exists s',
     emitMapDelete c N m key pos s = Some (None, s') /\
     calls (insts s') = calls (insts s) ++ ["hashmapStringDelete"]).
Proof.
  intros N. subst N.
  split; [reflexivity|]. split; [reflexivity|].
  split; [reflexivity|]. split; [reflexivity|].
  split.
  { rewrite emitMapLookup_unsupported by reflexivity.
    eexists. split; [reflexivity|].
    cbn [insts]. rewrite calls_app. apply app_nil_r. }
  split.
  { pose proof (emitMapLookup_string c m key pos s (Basic String) valueType
                  commaOk eq_refl) as H.
    cbv zeta in H. cbn [Underlying].
    destruct commaOk; cbn [lookupResult] in H; rewrite H;
      do 2 eexists; (split; [reflexivity|]);
      cbn [insts]; now rewrite calls_app. }
  split.
  { rewrite emitMapUpdate_string by reflexivity.
    eexists. split; [reflexivity|].
    cbn [insts diagnostics]. now rewrite calls_app. }
  rewrite emitMapDelete_string by reflexivity.
  eexists. split; [reflexivity|].
  cbn [insts]. now rewrite calls_app.
Qed.

(** ** Unsupported keys *)

Lemma keyClass_Lookup_unsupported (T : Type_) :
  keyClass Lookup T = Unsupported ->
  isBasicString T = false /\ hashmapIsBinaryKey T = false.
Proof.
  cbn [keyClass]. intros H.
  destruct (classify_cases T) as [[Hc _]|[[Hc _]|[_ HT]]];
    [congruence | congruence | exact HT].
Qed.

Lemma keyClass_Underlying_unsupported (op : Operation) (T : Type_) :
  op <> Lookup ->
  keyClass op T = Unsupported ->
  isBasicString (Underlying T) = false /\
  hashmapIsBinaryKey (Underlying T) = false.
Proof.
  intros Hop H.
  assert (Hc : classify (Underlying T) = Unsupported)
    by (destruct op; [congruence | exact H | exact H]).
  destruct (classify_cases (Underlying T)) as [[Hc' _]|[[Hc' _]|[_ HT]]];
    [congruence | congruence | exact HT].
Qed.

(** No operation calls the runtime for an unsupported key. *)
Lemma unsupported_key_emits_no_call (c : Compiler) (T valueType : Type_)
    (m key value : llvm.Value) (commaOk : bool) (pos : Z) (s : State) :
  (keyClass Lookup T = Unsupported ->
   exists r s', emitMapLookup c T valueType m key commaOk pos s = Some (r, s')
                /\ calls (insts s') = calls (insts s)) /\
  (keyClass Update T = Unsupported ->
   exists r s', emitMapUpdate c T m key value pos s = Some (r, s')
                /\ calls (insts s') = calls (insts s)) /\
  (keyClass Delete T = Unsupported ->
   exists r s', emitMapDelete c T m key pos s = Some (r, s')
                /\ calls (insts s') = calls (insts s)).
Proof.
  split; [|split]; intros HU.
  - destruct (emitMapLookup_dispatch c T valueType m key commaOk pos s)
      as (r & err & s' & Hrun & Hcalls & _).
    exists (r, err), s'. split; [exact Hrun|].
    rewrite Hcalls, HU. apply app_nil_r.
  - destruct (emitMapUpdate_dispatch c T m key value pos s)
      as (s' & Hrun & Hcalls & _).
    exists tt, s'. split; [exact Hrun|].
    rewrite Hcalls, HU. apply app_nil_r.
  - destruct (emitMapDelete_dispatch c T m key pos s)
      as (err & s' & Hrun & Hcalls & _).
    exists err, s'. split; [exact Hrun|].
    rewrite Hcalls, HU. apply app_nil_r.
Qed.

(** On the error branch, update releases the value buffer it staged, and
    delete has staged nothing. *)
Lemma update_delete_release_on_error (c : Compiler) (T : Type_)
    (m key value : llvm.Value) (pos : Z) (s : State) :
  (keyClass Update T = Unsupported ->
   exists s' ptr,
     emitMapUpdate c T m key value pos s = Some (tt, s') /\
     staged (insts s') = staged (insts s) ++ [ptr] /\
     released (insts s') = released (insts s) ++ [ptr]) /\
  (keyClass Delete T = Unsupported ->
   exists err,
     emitMapDelete c T m key pos s = Some (Some err, s)).
Proof.
  split; intros HU.
  - destruct (keyClass_Underlying_unsupported Update T) as [HT HB];
      [discriminate | exact HU |].
    rewrite (emitMapUpdate_unsupported c m key pos s T value HT HB).
    do 2 eexists. split; [reflexivity|].
    cbn [insts]. rewrite staged_app, released_app.
    split; reflexivity.
  - destruct (keyClass_Underlying_unsupported Delete T) as [HT HB];
      [discriminate | exact HU |].
    rewrite (emitMapDelete_unsupported c m key pos s T HT HB).
    eexists. reflexivity.
Qed.

(** C3: when lookup fails on an unsupported key it has emitted no runtime
    call, but the result buffer it staged is not released: the staging of
    "hashmap.value" is the only instruction it emitted. *)
Theorem lookup_error_leaves_result_buffer_staged (c : Compiler)
    (T valueType : Type_) (m key : llvm.Value) (commaOk : bool) (pos : Z)
    (s : State) :
  keyClass Lookup T = Unsupported ->
  exists err s' alloca ptr size,
    emitMapLookup c T valueType m key commaOk pos s =
      Some (llvm.Nil, Some err, s') /\
    insts s' =
      insts s ++ [llvm.TemporaryAlloca alloca ptr size "hashmap.value"] /\
    calls (insts s') = calls (insts s) /\
    staged (insts s') = staged (insts s) ++ [ptr] /\
    released (insts s') = released (insts s).
Proof.
  intros HU. destruct (keyClass_Lookup_unsupported T HU) as [HT HB].
  rewrite (emitMapLookup_unsupported c m key pos s T valueType commaOk HT HB).
  do 5 eexists. split; [reflexivity|].
  cbn [insts]. split; [reflexivity|].
  rewrite calls_app, staged_app, released_app.
  cbn [calls staged released flat_map app].
  rewrite !app_nil_r. repeat split; reflexivity.
Qed.

Lemma lookup_error_leaves_result_buffer_staged_witness :
  keyClass Lookup (Basic Float64) = Unsupported /\
  exists err s' alloca ptr size,
    emitMapLookup gba.compiler (Basic Float64) (Basic Int32) gba.m
      (llvm.Reg 1 llvm.DoubleType) false 7 gba.start =
      Some (llvm.Nil, Some err, s') /\
    insts s' =
      insts gba.start ++
      [llvm.TemporaryAlloca alloca ptr size "hashmap.value"] /\
    calls (insts s') = calls (insts gba.start) /\
    staged (insts s') = staged (insts gba.start) ++ [ptr] /\
    released (insts s') = released (insts gba.start).
Proof.
  split; [reflexivity|].
  apply (lookup_error_leaves_result_buffer_staged gba.compiler
           (Basic Float64) (Basic Int32)).
  reflexivity.
Defined.

(** A lookup with a [float64] key returns the error and no placeholder,
    whether or not the flag is asked for. *)
Lemma lookup_error_has_no_placeholder :
  (exists err s',
     emitMapLookup gba.compiler (Basic Float64) (Basic Int32) gba.m
       (llvm.Reg 1 llvm.DoubleType) true 7 gba.start =
       Some (llvm.Nil, Some err, s') /\
     ~ placeholder gba.compiler (Basic Int32) true llvm.Nil) /\
  (exists err s',
     emitMapLookup gba.compiler (Basic Float64) (Basic Int32) gba.m
       (llvm.Reg 1 llvm.DoubleType) false 7 gba.start =
       Some (llvm.Nil, Some err, s') /\
     ~ placeholder gba.compiler (Basic Int32) false llvm.Nil).
Proof.
  split; do 2 eexists; (split; [vm_compute; reflexivity|]);
    intros [Hnil _]; discriminate Hnil.
Qed.

(** C8 (amended): when a lookup fails with the unsupported-key error, it
    returns the empty [llvm.Value] together with an error that carries
    the position and names the key type; the result is no value of the
    map's value type nor of the pair type. *)
Theorem lookup_error_returns_nil (c : Compiler) (T valueType : Type_)
    (m key : llvm.Value) (commaOk : bool) (pos : Z) (s : State) :
  keyClass Lookup T = Unsupported ->
  exists result err s',
    emitMapLookup c T valueType m key commaOk pos s =
      Some (result, Some err, s') /\
    result = llvm.Nil /\
    llvm.IsNil result = true /\
    ~ placeholder c valueType commaOk result /\
    Pos err = pos /\
    Msg err = (unsupportedKey ++ TypeString T)%string.
Proof.
  intros HU. destruct (keyClass_Lookup_unsupported T HU) as [HT HB].
  rewrite (emitMapLookup_unsupported c m key pos s T valueType commaOk HT HB).
  do 3 eexists. split; [reflexivity|].
  repeat split. intros [Hnil _]. discriminate Hnil.
Qed.

Lemma lookup_error_returns_nil_witness :
  keyClass Lookup (Slice (Basic Uint8)) = Unsupported /\
  exists result err s',
    emitMapLookup gba.compiler (Slice (Basic Uint8)) (Basic Bool) gba.m
      (llvm.Reg 1 i8ptrType) true 3 gba.start =
      Some (result, Some err, s') /\
    result = llvm.Nil /\
    llvm.IsNil result = true /\
    ~ placeholder gba.compiler (Basic Bool) true result /\
    Pos err = 3 /\
    Msg err = (unsupportedKey ++ TypeString (Slice (Basic Uint8)))%string.
Proof.
  split; [reflexivity|].
  apply (lookup_error_returns_nil gba.compiler (Slice (Basic Uint8))).
  reflexivity.
Defined.

(** ** Buffers on the paths that succeed *)

(** Update and delete release every buffer they stage, whatever the key
    class. *)
Lemma update_delete_release_every_buffer (c : Compiler) (T : Type_)
    (m key value : llvm.Value) (pos : Z) (s : State) :
  (exists s',
     emitMapUpdate c T m key value pos s = Some (tt, s') /\
     forall p, In p (staged (emitted s s')) ->
               In p (released (emitted s s'))) /\
  (exists err s',
     emitMapDelete c T m key pos s = Some (err, s') /\
     forall p, In p (staged (emitted s s')) ->
               In p (released (emitted s s'))).
Proof.
  split.
  - destruct (classify_cases (Underlying T))
      as [[_ HT]|[[_ [HT HB]]|[_ [HT HB]]]].
    + rewrite (emitMapUpdate_string c m key pos s T value HT).
      eexists. split; [reflexivity|]. rewrite emitted_app.
      cbn. tauto.
    + rewrite (emitMapUpdate_binary c m key pos s T value HT HB).
      eexists. split; [reflexivity|]. rewrite emitted_app.
      cbn. tauto.
    + rewrite (emitMapUpdate_unsupported c m key pos s T value HT HB).
      eexists. split; [reflexivity|]. rewrite emitted_app.
      cbn. tauto.
  - destruct (classify_cases (Underlying T))
      as [[_ HT]|[[_ [HT HB]]|[_ [HT HB]]]].
    + rewrite (emitMapDelete_string c m key pos s T HT).
      do 2 eexists. split; [reflexivity|]. rewrite emitted_app.
      cbn. tauto.
    + rewrite (emitMapDelete_binary c m key pos s T HT HB).
      do 2 eexists. split; [reflexivity|]. rewrite emitted_app.
      cbn. tauto.
    + rewrite (emitMapDelete_unsupported c m key pos s T HT HB).
      do 2 eexists. split; [reflexivity|].
      unfold emitted. rewrite skipn_all. cbn. tauto.
Qed.

(** A lookup that succeeds releases every buffer it staged. *)
Lemma lookup_releases_every_buffer (c : Compiler) (T valueType : Type_)
    (m key : llvm.Value) (commaOk : bool) (pos : Z) (s : State) :
  keyClass Lookup T <> Unsupported ->
  exists result s',
    emitMapLookup c T valueType m key commaOk pos s =
      Some (result, None, s') /\
    forall p, In p (staged (emitted s s')) ->
              In p (released (emitted s s')).
Proof.
  cbn [keyClass]. intros HU.
  destruct (classify_cases T) as [[_ HT]|[[_ [HT HB]]|[Hc _]]];
    [| |congruence].
  - pose proof (emitMapLookup_string c m key pos s T valueType commaOk HT)
      as H.
    cbv zeta in H. destruct commaOk; cbn [lookupResult] in H; rewrite H;
      do 2 eexists; (split; [reflexivity|]); rewrite emitted_app;
      cbn; tauto.
  - pose proof (emitMapLookup_binary c m key pos s T valueType commaOk HT HB)
      as H.
    cbv zeta in H. destruct commaOk; cbn [lookupResult] in H; rewrite H;
      do 2 eexists; (split; [reflexivity|]); rewrite emitted_app;
      cbn; tauto.
Qed.

(** ** Struct keys *)

(** A struct of an [int32] and a [bool] is BinaryKey; a struct of an
    [int32] and a [string] is Unsupported, and the diagnostic names that
    type. *)
Example struct_keys :
  let binary := Struct [("a", Basic Int32); ("b", Basic Bool)] in
  let mixed := Struct [("a", Basic Int32); ("b", Basic String)] in
  (forall op, keyClass op binary = BinaryKey) /\
  (forall op, keyClass op mixed = Unsupported) /\
  emitMapDelete gba.compiler mixed gba.m
    (llvm.Reg 1 (gba.getLLVMType mixed)) 7 gba.start =
  Some (Some (makeError 7
                (unsupportedKey ++ "struct{a int32; b string}")%string),
        gba.start).
Proof.
  split; [intros op; destruct op; reflexivity|].
  split; [intros op; destruct op; reflexivity|].
  reflexivity.
Qed.

(** [unsafe.Pointer] and the complex types are basic types without the
    boolean, integer or string flag: they are Unsupported. *)
Example other_basic_kinds (op : Operation) :
  keyClass op (Basic UnsafePointer) = Unsupported /\
  keyClass op (Basic Complex64) = Unsupported /\
  keyClass op (Basic Complex128) = Unsupported /\
  keyClass op (Chan (Basic Int)) = Unsupported.
Proof. destruct op; repeat split. Qed.

(** ** The empty struct *)

(** C10: a struct with zero fields is BinaryKey, and lookup, update and
    delete accept it: each calls its binary-keyed entry point and reports
    no error. *)
Theorem empty_struct_is_binary_key (c : Compiler) (valueType : Type_)
    (m key value : llvm.Value) (commaOk : bool) (pos : Z) (s : State) :
  hashmapIsBinaryKey (Struct []) = true /\
  (forall op, keyClass op (Struct []) = BinaryKey) /\
  (exists result s',
     emitMapLookup c (Struct []) valueType m key commaOk pos s =
       Some (result, None, s') /\
     calls (insts s') = calls (insts s) ++ ["hashmapBinaryGet"] /\
     diagnostics s' = diagnostics s) /\
  (exists s',
     emitMapUpdate c (Struct []) m key value pos s = Some (tt, s') /\
     calls (insts s') = calls (insts s) ++ ["hashmapBinarySet"] /\
     diagnostics s' = diagnostics s) /\
  (exists s',
     emitMapDelete c (Struct []) m key pos s = Some (None, s') /\
     calls (insts s') = calls (insts s) ++ ["hashmapBinaryDelete"] /\
     diagnostics s' = diagnostics s).
Proof.
  split; [reflexivity|].
  split; [intros op; destruct op; reflexivity|].
  split.
  { destruct (emitMapLookup_dispatch c (Struct []) valueType m key commaOk
                pos s) as (r & err & s' & Hrun & Hcalls & Herr & Hd).
    assert (He : err = None) by (apply Herr; discriminate).
    subst err. exists r, s'. auto. }
  split.
  { destruct (emitMapUpdate_dispatch c (Struct []) m key value pos s)
      as (s' & Hrun & Hcalls & Hd).
    exists s'. repeat split; auto. apply Hd. discriminate. }
  destruct (emitMapDelete_dispatch c (Struct []) m key pos s)
    as (err & s' & Hrun & Hcalls & Herr & Hd).
  assert (He : err = None) by (apply Herr; discriminate).
  subst err. exists s'. auto.
Qed.

(** ** Map creation *)

Section MakeMap.

Variable c : Compiler.
Variable frame : Frame.
Variable expr : ssa.MakeMap.
Variables keyType elemType : Type_.
Hypothesis expr_is_map :
  Underlying (ssa.MakeMap_Type expr) = Map keyType elemType.

Let sizeOf (T : Type_) : llvm.Value :=
  llvm.ConstInt (llvm.IntType 8)
    (TypeAllocSize c (getLLVMType c (Underlying T))) false.

(** Without a size hint the call is the only instruction emitted. *)
Lemma emitMakeMap_default (s : State) :
  ssa.Reserve expr = None ->
  let hashmap := llvm.Reg (nextId s) i8ptrType in
  emitMakeMap c frame expr s =
  Some (hashmap, None,
        mkState (insts s ++
                 [llvm.Call hashmap "hashmapMake"
                    [sizeOf keyType; sizeOf elemType;
                     llvm.ConstInt (uintptrType c) 8 false]])
                (S (nextId s)) (diagnostics s)).
Proof.
  intros HR. unfold emitMakeMap. rewrite expr_is_map, HR.
  run_builder. reflexivity.
Qed.

(** With a size hint the call follows the conversion and takes the
    converted value. *)
Lemma emitMakeMap_reserve (s s1 : State) (reserve : ssa.Value)
    (sizeHint : llvm.Value) :
  ssa.Reserve expr = Some reserve ->
  parseConvert c (ssa.TypeOf reserve) (Basic Uintptr)
    (getValue c frame reserve) (ssa.MakeMap_Pos expr) s =
    Some (sizeHint, None, s1) ->
  let hashmap := llvm.Reg (nextId s1) i8ptrType in
  emitMakeMap c frame expr s =
  Some (hashmap, None,
        mkState (insts s1 ++
                 [llvm.Call hashmap "hashmapMake"
                    [sizeOf keyType; sizeOf elemType; sizeHint]])
                (S (nextId s1)) (diagnostics s1)).
Proof.
  intros HR HC. unfold emitMakeMap. rewrite expr_is_map, HR.
  unfold bind at 1. rewrite HC.
  run_builder. reflexivity.
Qed.

(** The only error [emitMakeMap] returns is the one [parseConvert]
    returned for the size hint; no call is emitted then. *)
Lemma emitMakeMap_error (s s1 : State) (reserve : ssa.Value)
    (sizeHint : llvm.Value) (err : Error) :
  ssa.Reserve expr = Some reserve ->
  parseConvert c (ssa.TypeOf reserve) (Basic Uintptr)
    (getValue c frame reserve) (ssa.MakeMap_Pos expr) s =
    Some (sizeHint, Some err, s1) ->
  emitMakeMap c frame expr s = Some (llvm.Nil, Some err, s1).
Proof.
  intros HR HC. unfold emitMakeMap. rewrite expr_is_map, HR.
  unfold bind at 1. rewrite HC. reflexivity.
Qed.

End MakeMap.

(** C4: creation does not fail at this layer: for every key type, value
    type and optional size hint, [emitMakeMap] returns the handle that the
    call to [hashmapMake] produced and no error, also when the key type
    is one the dispatching operations reject; the conversion of the size
    hint, which is not part of map.go, is taken to succeed. *)
Theorem emitMakeMap_never_fails (c : Compiler) (frame : Frame)
    (expr : ssa.MakeMap) (keyType elemType : Type_) (s : State) :
  Underlying (ssa.MakeMap_Type expr) = Map keyType elemType ->
  (forall reserve,
     ssa.Reserve expr = Some reserve ->
     exists sizeHint s1,
       parseConvert c (ssa.TypeOf reserve) (Basic Uintptr)
         (getValue c frame reserve) (ssa.MakeMap_Pos expr) s =
         Some (sizeHint, None, s1)) ->
  exists hashmap s' s1 args,
    emitMakeMap c frame expr s = Some (hashmap, None, s') /\
    hasType hashmap i8ptrType /\
    insts s' = insts s1 ++ [llvm.Call hashmap "hashmapMake" args] /\
    diagnostics s' = diagnostics s1 /\
    (ssa.Reserve expr = None -> s1 = s).
Proof.
  intros HT HC.
  destruct (ssa.Reserve expr) as [reserve|] eqn:HR.
  - destruct (HC reserve eq_refl) as (sizeHint & s1 & Hconv).
    rewrite (emitMakeMap_reserve c frame expr keyType elemType HT
               s s1 reserve sizeHint HR Hconv).
    do 4 eexists. split; [reflexivity|].
    cbn [insts diagnostics].
    repeat split; try reflexivity. discriminate.
  - rewrite (emitMakeMap_default c frame expr keyType elemType HT s HR).
    do 4 eexists. split; [reflexivity|].
    cbn [insts diagnostics].
    repeat split; reflexivity.
Qed.

Lemma emitMakeMap_never_fails_witness :
  keyClass Update (Basic Float64) = Unsupported /\
  exists hashmap s' s1 args,
    emitMakeMap gba.compiler (mkFrame [("n", llvm.Reg 1 (llvm.IntType 64))])
      (ssa.mkMakeMap (Named "main.Table" (Map (Basic Float64) (Basic Uint8)))
         (Some (ssa.mkValue "n" (Basic Int64))) 3)
      gba.start = Some (hashmap, None, s') /\
    hasType hashmap i8ptrType /\
    insts s' = insts s1 ++ [llvm.Call hashmap "hashmapMake" args] /\
    diagnostics s' = diagnostics s1 /\
    (ssa.Reserve
       (ssa.mkMakeMap (Named "main.Table" (Map (Basic Float64) (Basic Uint8)))
          (Some (ssa.mkValue "n" (Basic Int64))) 3) = None ->
     s1 = gba.start).
Proof.
  split; [reflexivity|].
  apply (emitMakeMap_never_fails gba.compiler _ _
           (Basic Float64) (Basic Uint8)).
  - reflexivity.
  - intros reserve Hr. injection Hr as Hr. subst reserve.
    do 2 eexists. reflexivity.
Defined.

(** C9: without a size hint, the size hint passed to [hashmapMake] is the
    constant 8 of the [uintptr] type; with a size hint, the value passed
    is what [parseConvert] returned when asked to convert the hint to
    [uintptr], and the conversion comes before the call. *)
Theorem emitMakeMap_size_hint (c : Compiler) (frame : Frame)
    (expr : ssa.MakeMap) (keyType elemType : Type_) (s : State) :
  Underlying (ssa.MakeMap_Type expr) = Map keyType elemType ->
  (ssa.Reserve expr = None ->
   exists hashmap keySize valueSize s',
     emitMakeMap c frame expr s = Some (hashmap, None, s') /\
     insts s' =
       insts s ++
       [llvm.Call hashmap "hashmapMake"
          [keySize; valueSize; llvm.ConstInt (uintptrType c) 8 false]] /\
     (forall bits, 4 <= bits -> uintptrType c = llvm.IntType bits ->
        llvm.ConstInt (uintptrType c) 8 false =
        llvm.Const (llvm.IntType bits) 8)) /\
  (forall reserve sizeHint s1,
     ssa.Reserve expr = Some reserve ->
     parseConvert c (ssa.TypeOf reserve) (Basic Uintptr)
       (getValue c frame reserve) (ssa.MakeMap_Pos expr) s =
       Some (sizeHint, None, s1) ->
     exists hashmap keySize valueSize s',
       emitMakeMap c frame expr s = Some (hashmap, None, s') /\
       insts s' =
         insts s1 ++
         [llvm.Call hashmap "hashmapMake" [keySize; valueSize; sizeHint]]).
Proof.
  intros HT. split.
  - intros HR.
    rewrite (emitMakeMap_default c frame expr keyType elemType HT s HR).
    do 4 eexists. split; [reflexivity|]. split; [reflexivity|].
    intros bits Hbits Hu. rewrite Hu. cbn [llvm.ConstInt].
    f_equal. apply Z.mod_small. split; [lia|].
    apply Z.lt_le_trans with (2 ^ 4); [reflexivity|].
    apply Z.pow_le_mono_r; lia.
  - intros reserve sizeHint s1 HR HC.
    rewrite (emitMakeMap_reserve c frame expr keyType elemType HT
               s s1 reserve sizeHint HR HC).
    do 4 eexists. split; reflexivity.
Qed.

(** Creating a map of byte-sized keys and values with no size hint asks
    the runtime for a size hint of exactly 8; with the hint [n] of type
    [int64] the argument is the converted value. *)
Lemma emitMakeMap_size_hint_witness :
  (exists hashmap s',
     emitMakeMap gba.compiler (mkFrame [])
       (ssa.mkMakeMap (Map (Basic Uint8) (Basic Uint8)) None 3) gba.start =
       Some (hashmap, None, s') /\
     insts s' =
       [llvm.Call hashmap "hashmapMake"
          [llvm.Const (llvm.IntType 8) 1; llvm.Const (llvm.IntType 8) 1;
           llvm.Const (llvm.IntType 32) 8]]) /\
  (exists hashmap s',
     emitMakeMap gba.compiler (mkFrame [("n", llvm.Reg 1 (llvm.IntType 64))])
       (ssa.mkMakeMap (Map (Basic Uint8) (Basic Uint8))
          (Some (ssa.mkValue "n" (Basic Int64))) 3) gba.start =
       Some (hashmap, None, s') /\
     insts s' =
       [llvm.Convert (llvm.Reg 2 (llvm.IntType 32))
          (llvm.Reg 1 (llvm.IntType 64));
        llvm.Call hashmap "hashmapMake"
          [llvm.Const (llvm.IntType 8) 1; llvm.Const (llvm.IntType 8) 1;
           llvm.Reg 2 (llvm.IntType 32)]]).
Proof.
  split.
  - destruct (emitMakeMap_size_hint gba.compiler (mkFrame [])
                (ssa.mkMakeMap (Map (Basic Uint8) (Basic Uint8)) None 3)
                (Basic Uint8) (Basic Uint8) gba.start eq_refl) as [H _].
    destruct (H eq_refl) as (hashmap & ks & vs & s' & Hrun & Hinsts & _).
    exists hashmap, s'. split; [exact Hrun|].
    vm_compute in Hrun.
    injection Hrun as Hh Hs. subst hashmap s'. reflexivity.
  - destruct (emitMakeMap_size_hint gba.compiler
                (mkFrame [("n", llvm.Reg 1 (llvm.IntType 64))])
                (ssa.mkMakeMap (Map (Basic Uint8) (Basic Uint8))
                   (Some (ssa.mkValue "n" (Basic Int64))) 3)
                (Basic Uint8) (Basic Uint8) gba.start eq_refl) as [_ H].
    destruct (H _ _ _ eq_refl eq_refl)
      as (hashmap & ks & vs & s' & Hrun & Hinsts).
    exists hashmap, s'. split; [exact Hrun|].
    vm_compute in Hrun.
    injection Hrun as Hh Hs. subst hashmap s'. reflexivity.
Defined.

(** ** The result of a lookup *)

Lemma upd_same {A} (f : nat -> A) (k : nat) (a : A) :
  machine.upd f k a k = a.
Proof. unfold machine.upd. now rewrite Nat.eqb_refl. Qed.

Lemma upd_other {A} (f : nat -> A) (k x : nat) (a : A) :
  x <> k -> machine.upd f k a x = f x.
Proof.
  intros H. unfold machine.upd.
  now rewrite (proj2 (Nat.eqb_neq x k) H).
Qed.

(** Both outcomes of a get entry point at once. *)
Lemma hashmapGet_eq (rt : machine.Runtime) (sigma : machine.Machine)
    (r : nat) (t : llvm.Type_) (h k : machine.Val) (b : nat) :
  machine.hashmapGet rt sigma (llvm.Reg r t) h k (machine.Addr b) =
  machine.mkMachine
    (machine.upd (machine.regs sigma) r
       (machine.Flag (machine.lookupFound rt h k)))
    (machine.upd (machine.mem sigma) b (Some (machine.lookupValue rt h k))).
Proof.
  unfold machine.hashmapGet, machine.lookupFound, machine.lookupValue.
  destruct (machine.contents rt h k); reflexivity.
Qed.

Ltac run_machine :=
  repeat first
    [ rewrite upd_same
    | rewrite upd_other by lia
    | rewrite hashmapGet_eq
    | progress cbn [app machine.run fold_left machine.step
                    machine.setReg machine.setMem machine.load machine.eval
                    machine.regs machine.mem machine.insertField
                    machine.setNth machine.undefOf List.map Z.to_nat
                    String.eqb Ascii.eqb Bool.eqb] ].

Ltac run_operands m key Hm Hk :=
  destruct m, key; cbn [definedBefore] in Hm, Hk; unfold i8ptrType;
  run_machine; reflexivity.

(** C7: for a key type that lookup accepts, the two forms of the lookup
    emit the same code up to the release of the result buffer, with the
    same single call to the get entry point, whose result is the flag;
    without the flag the result is the loaded value, of the value type;
    with the flag it is the pair of that value and the flag, built by two
    further instructions.  Run against the runtime contract, the value is
    the stored value, or zero bytes of the value's size when the key is
    absent, in both forms, though the lowering leaves the result buffer
    uninitialised. *)
Theorem lookup_result_shape (rt : machine.Runtime) (sigma : machine.Machine)
    (c : Compiler) (T valueType : Type_) (m key : llvm.Value) (pos : Z)
    (s : State) :
  keyClass Lookup T <> Unsupported ->
  definedBefore (nextId s) m ->
  definedBefore (nextId s) key ->
  let pair := llvm.StructType [getLLVMType c valueType; llvm.IntType 1] false in
  let h := machine.eval sigma m in
  let k := machine.eval sigma key in
  exists value flag t tuple s0 s1 fn args,
    emitMapLookup c T valueType m key false pos s = Some (value, None, s0) /\
    emitMapLookup c T valueType m key true pos s = Some (tuple, None, s1) /\
    hasType value (getLLVMType c valueType) /\
    hasType tuple pair /\
    insts s1 =
      insts s0 ++
      [llvm.InsertValue t (llvm.Undef pair) value 0;
       llvm.InsertValue tuple t flag 1] /\
    In (llvm.Call flag fn args) (emitted s s0) /\
    hasType flag (llvm.IntType 1) /\
    calls (emitted s s0) = entryPoint Lookup (keyClass Lookup T) /\
    calls (emitted s s1) = entryPoint Lookup (keyClass Lookup T) /\
    machine.eval (machine.run rt (emitted s s0) sigma) value =
      machine.lookupValue rt h k /\
    machine.eval (machine.run rt (emitted s s1) sigma) tuple =
      machine.Tuple [machine.lookupValue rt h k;
                     machine.Flag (machine.lookupFound rt h k)] /\
    (machine.contents rt h k = None ->
     machine.lookupValue rt h k =
       machine.Bytes (repeat x00 (machine.valueSize rt h)) /\
     machine.lookupFound rt h k = false).
Proof.
  intros HU Hm Hk pair h k.
  assert (Hzero :
            machine.contents rt h k = None ->
            machine.lookupValue rt h k =
              machine.Bytes (repeat x00 (machine.valueSize rt h)) /\
            machine.lookupFound rt h k = false).
  { intros Hnone. unfold machine.lookupValue, machine.lookupFound.
    rewrite Hnone. split; reflexivity. }
  subst pair h k. cbn [keyClass] in *.
  destruct (classify_cases T) as [[Hc HT]|[[Hc [HT HB]]|[Hc _]]];
    [| |congruence]; rewrite Hc.
  - pose proof (emitMapLookup_string c m key pos s T valueType false HT)
      as H0.
    pose proof (emitMapLookup_string c m key pos s T valueType true HT)
      as H1.
    cbv zeta in H0, H1. cbn [lookupResult app] in H0, H1.
    rewrite H0, H1. clear H0 H1.
    do 8 eexists.
    split; [reflexivity|]. split; [reflexivity|].
    split; [split; reflexivity|]. split; [split; reflexivity|].
    cbn [insts]. rewrite !emitted_app.
    split; [rewrite <- app_assoc; reflexivity|].
    split; [right; left; reflexivity|].
    split; [split; reflexivity|].
    split; [reflexivity|]. split; [reflexivity|].
    split; [|split; [|exact Hzero]]; clear Hzero;
      run_operands m key Hm Hk.
  - pose proof (emitMapLookup_binary c m key pos s T valueType false HT HB)
      as H0.
    pose proof (emitMapLookup_binary c m key pos s T valueType true HT HB)
      as H1.
    cbv zeta in H0, H1. cbn [lookupResult app] in H0, H1.
    rewrite H0, H1. clear H0 H1.
    do 8 eexists.
    split; [reflexivity|]. split; [reflexivity|].
    split; [split; reflexivity|]. split; [split; reflexivity|].
    cbn [insts]. rewrite !emitted_app.
    split; [rewrite <- app_assoc; reflexivity|].
    split; [do 3 right; left; reflexivity|].
    split; [split; reflexivity|].
    split; [reflexivity|]. split; [reflexivity|].
    split; [|split; [|exact Hzero]]; clear Hzero;
      run_operands m key Hm Hk.
Qed.

(** Looking up a string key in an empty map without asking for the flag
    yields four zero bytes; asking for the flag yields them paired with
    [false]. *)
Lemma lookup_result_shape_witness :
  keyClass Lookup (Basic String) <> Unsupported /\
  definedBefore (nextId gba.start) gba.m /\
  exists value tuple s0 s1,
    emitMapLookup gba.compiler (Basic String) (Basic Int32) gba.m
      (llvm.Reg 1 (gba.getLLVMType (Basic String))) false 7 gba.start =
      Some (value, None, s0) /\
    emitMapLookup gba.compiler (Basic String) (Basic Int32) gba.m
      (llvm.Reg 1 (gba.getLLVMType (Basic String))) true 7 gba.start =
      Some (tuple, None, s1) /\
    hasType value (llvm.IntType 32) /\
    hasType tuple (llvm.StructType [llvm.IntType 32; llvm.IntType 1] false) /\
    machine.eval (machine.run gba.emptyMaps (emitted gba.start s0) gba.boot)
      value = machine.Bytes [x00; x00; x00; x00] /\
    machine.eval (machine.run gba.emptyMaps (emitted gba.start s1) gba.boot)
      tuple =
      machine.Tuple [machine.Bytes [x00; x00; x00; x00]; machine.Flag false].
Proof.
  split; [discriminate|]. split; [cbn; lia|].
  destruct (lookup_result_shape gba.emptyMaps gba.boot gba.compiler
              (Basic String) (Basic Int32) gba.m
              (llvm.Reg 1 (gba.getLLVMType (Basic String))) 7 gba.start)
    as (value & flag & t & tuple & s0 & s1 & fn & args & H0 & H1 & Hv & Ht
        & _ & _ & _ & _ & _ & Hrun0 & Hrun1 & _).
  - discriminate.
  - cbn; lia.
  - cbn; lia.
  - exists value, tuple, s0, s1.
    split; [exact H0|]. split; [exact H1|].
    split; [exact Hv|]. split; [exact Ht|].
    split; [exact Hrun0 | exact Hrun1].
Defined.

(** * Further properties *)

(** ** The hash of changed data *)

Lemma mul_prime_cancel (x : Z) :
  0 <= x < 2 ^ 32 ->
  ((x * fnvPrime) mod 2 ^ 32 * fnvPrimeInverse) mod 2 ^ 32 = x.
Proof.
  intros Hx.
  rewrite Z.mul_mod_idemp_l by lia.
  rewrite <- Z.mul_assoc, <- Z.mul_mod_idemp_r by lia.
  replace ((fnvPrime * fnvPrimeInverse) mod 2 ^ 32) with 1 by reflexivity.
  rewrite Z.mul_1_r. apply Z.mod_small. exact Hx.
Qed.

Lemma lxor_range (a b : Z) :
  0 <= a < 2 ^ 32 -> 0 <= b < 2 ^ 32 -> 0 <= Z.lxor a b < 2 ^ 32.
Proof.
  intros Ha Hb.
  assert (H0 : 0 <= Z.lxor a b) by (apply Z.lxor_nonneg; lia).
  split; [exact H0|].
  destruct (Z.eq_dec (Z.lxor a b) 0) as [Hz|Hnz]; [rewrite Hz; lia|].
  apply Z.log2_lt_pow2; [lia|].
  pose proof (Z.log2_lxor a b (proj1 Ha) (proj1 Hb)) as Hlog.
  assert (Hla : Z.log2 a < 32).
  { destruct (Z.eq_dec a 0) as [->|]; [reflexivity|].
    apply Z.log2_lt_pow2; lia. }
  assert (Hlb : Z.log2 b < 32).
  { destruct (Z.eq_dec b 0) as [->|]; [reflexivity|].
    apply Z.log2_lt_pow2; lia. }
  lia.
Qed.

Lemma lxor_cancel_l (a b1 b2 : Z) : Z.lxor a b1 = Z.lxor a b2 -> b1 = b2.
Proof.
  intros H.
  rewrite <- (Z.lxor_0_l b1), <- (Z.lxor_0_l b2), <- (Z.lxor_nilpotent a).
  rewrite !Z.lxor_assoc. now rewrite H.
Qed.

Lemma byteZ_inj (b1 b2 : byte) : byteZ b1 = byteZ b2 -> b1 = b2.
Proof.
  unfold byteZ. intros H. apply N2Z.inj in H.
  pose proof (Byte.of_to_N b1) as H1. rewrite H, Byte.of_to_N in H1.
  congruence.
Qed.

Lemma byteZ_range32 (b : byte) : 0 <= byteZ b < 2 ^ 32.
Proof. pose proof (byteZ_range b). lia. Qed.

Lemma fnvStep_range (acc : Z) (b : byte) : 0 <= fnvStep acc b < 2 ^ 32.
Proof. unfold fnvStep. apply Z.mod_pos_bound. lia. Qed.

(** For a fixed byte the step is one-to-one on 32-bit accumulators. *)
Lemma fnvStep_inj_acc (a1 a2 : Z) (b : byte) :
  0 <= a1 < 2 ^ 32 -> 0 <= a2 < 2 ^ 32 ->
  fnvStep a1 b = fnvStep a2 b -> a1 = a2.
Proof.
  intros H1 H2 H. unfold fnvStep in H.
  apply (f_equal (fun z => (z * fnvPrimeInverse) mod 2 ^ 32)) in H.
  rewrite !mul_prime_cancel in H
    by (apply lxor_range; auto using byteZ_range32).
  rewrite (Z.lxor_comm a1), (Z.lxor_comm a2) in H.
  now apply lxor_cancel_l in H.
Qed.

(** For a fixed 32-bit accumulator the step is one-to-one on bytes. *)
Lemma fnvStep_inj_byte (acc : Z) (b1 b2 : byte) :
  0 <= acc < 2 ^ 32 ->
  fnvStep acc b1 = fnvStep acc b2 -> b1 = b2.
Proof.
  intros Ha H. unfold fnvStep in H.
  apply (f_equal (fun z => (z * fnvPrimeInverse) mod 2 ^ 32)) in H.
  rewrite !mul_prime_cancel in H
    by (apply lxor_range; auto using byteZ_range32).
  apply lxor_cancel_l in H. now apply byteZ_inj.
Qed.

Lemma fnv1a_inj_acc (data : list byte) (a1 a2 : Z) :
  0 <= a1 < 2 ^ 32 -> 0 <= a2 < 2 ^ 32 ->
  fnv1a a1 data = fnv1a a2 data -> a1 = a2.
Proof.
  revert a1 a2. induction data as [|b rest IH]; intros a1 a2 H1 H2 H.
  - exact H.
  - cbn [fnv1a] in H.
    apply IH in H; auto using fnvStep_range.
    now apply fnvStep_inj_acc in H.
Qed.

Lemma fnv1a_app (l l' : list byte) (acc : Z) :
  fnv1a acc (l ++ l') = fnv1a (fnv1a acc l) l'.
Proof.
  revert acc. induction l as [|b rest IH]; intros acc; cbn [app fnv1a].
  - reflexivity.
  - apply IH.
Qed.

(** X1: changing exactly one byte of the data, anywhere in it, always
    changes [hashmapHash]. *)
Theorem hashmapHash_one_byte_changed (before after : list byte)
    (b1 b2 : byte) :
  b1 <> b2 ->
  hashmapHash (before ++ b1 :: after) <> hashmapHash (before ++ b2 :: after).
Proof.
  intros Hne H. apply Hne.
  unfold hashmapHash in H. rewrite !fold_is_fnv1a, !fnv1a_app in H.
  cbn [fnv1a] in H.
  assert (Hacc : 0 <= fnv1a 2166136261 before < 2 ^ 32)
    by (apply fnv1a_range; lia).
  apply fnv1a_inj_acc in H; auto using fnvStep_range.
  now apply fnvStep_inj_byte in H.
Qed.

Lemma hashmapHash_one_byte_changed_witness :
  x61 <> x62 /\
  hashmapHash [x66; x61; x72] <> hashmapHash [x66; x62; x72].
Proof.
  split; [discriminate|].
  apply (hashmapHash_one_byte_changed [x66] [x72] x61 x62).
  discriminate.
Defined.

(** X2: appending the same bytes to two pieces of data neither creates
    nor removes a collision: the extended data collide exactly when the
    pieces do. *)
Theorem hashmapHash_common_suffix (d1 d2 more : list byte) :
  hashmapHash (d1 ++ more) = hashmapHash (d2 ++ more) <->
  hashmapHash d1 = hashmapHash d2.
Proof.
  unfold hashmapHash. rewrite !fold_is_fnv1a, !fnv1a_app.
  split.
  - apply fnv1a_inj_acc; apply fnv1a_range; lia.
  - intros H. now rewrite H.
Qed.

(** ** The top hash of a hash *)

Lemma hashmapTopHash_max (h : Z) :
  0 <= h < 2 ^ 32 -> hashmapTopHash h = Z.max 1 (Z.shiftr h 24).
Proof.
  intros Hh. pose proof (top_byte_range h Hh) as Htop.
  unfold hashmapTopHash.
  assert (Hu : uint8 (Z.shiftr h 24) = Z.shiftr h 24)
    by (unfold uint8; apply Z.mod_small; lia).
  rewrite Hu.
  destruct (Z.ltb_spec (Z.shiftr h 24) 1) as [Hlt|Hge].
  - assert (Hz : Z.shiftr h 24 = 0) by lia. rewrite Hz. reflexivity.
  - lia.
Qed.

(** X3: the top hash of the hash of any data is a byte from 1 to 255. *)
Theorem hashmapTopHash_of_hash_range (data : list byte) :
  1 <= hashmapTopHash (hashmapHash data) <= 255.
Proof.
  assert (Hh : 0 <= hashmapHash data < 2 ^ 32).
  { unfold hashmapHash. rewrite fold_is_fnv1a. apply fnv1a_range. lia. }
  rewrite (hashmapTopHash_max _ Hh).
  pose proof (top_byte_range _ Hh). lia.
Qed.

(** X4: two 32-bit hashes have the same top hash exactly when their top
    bytes are equal or are both at most 1: the top bytes 0 and 1 are the
    only ones that share a top hash, and the lower 24 bits never count. *)
Theorem hashmapTopHash_collisions (h1 h2 : Z) :
  0 <= h1 < 2 ^ 32 -> 0 <= h2 < 2 ^ 32 ->
  (hashmapTopHash h1 = hashmapTopHash h2 <->
   Z.shiftr h1 24 = Z.shiftr h2 24 \/
   (Z.shiftr h1 24 <= 1 /\ Z.shiftr h2 24 <= 1)).
Proof.
  intros H1 H2.
  rewrite (hashmapTopHash_max h1 H1), (hashmapTopHash_max h2 H2).
  pose proof (top_byte_range h1 H1). pose proof (top_byte_range h2 H2).
  lia.
Qed.

Lemma hashmapTopHash_collisions_witness :
  0 <= 0x00ffffff < 2 ^ 32 /\ 0 <= 0x01000000 < 2 ^ 32 /\
  hashmapTopHash 0x00ffffff = hashmapTopHash 0x01000000.
Proof.
  split; [lia|]. split; [lia|].
  apply (hashmapTopHash_collisions 0x00ffffff 0x01000000); [lia | lia |].
  right. split; discriminate.
Defined.

(** ** What a binary key is made of *)

Section KeyTypeInduction.

Variable P : Type_ -> Prop.
Hypothesis P_leaf :
  forall t,
    match t with
    | Struct _ | Array _ _ | Named _ _ => False
    | _ => True
    end -> P t.
Hypothesis P_Struct :
  forall fs, Forall (fun f => P (snd f)) fs -> P (Struct fs).
Hypothesis P_Array : forall n e, P e -> P (Array n e).
Hypothesis P_Named : forall name u, P u -> P (Named name u).

Fixpoint key_type_ind (t : Type_) : P t :=
  match t with
  | Struct fs =>
      P_Struct fs
        ((fix each (l : list (string * Type_))
            : Forall (fun f => P (snd f)) l :=
            match l with
            | [] => Forall_nil _
            | f :: rest => Forall_cons f (key_type_ind (snd f)) (each rest)
            end) fs)
  | Array n e => P_Array n e (key_type_ind e)
  | Named name u => P_Named name u (key_type_ind u)
  | Basic k => P_leaf (Basic k) I
  | Pointer e => P_leaf (Pointer e) I
  | Slice e => P_leaf (Slice e) I
  | Map k e => P_leaf (Map k e) I
  | Chan e => P_leaf (Chan e) I
  | Signature ps rs => P_leaf (Signature ps rs) I
  | Interface ms => P_leaf (Interface ms) I
  | Tuple vs => P_leaf (Tuple vs) I
  end.

End KeyTypeInduction.

Lemma leaves_Struct (fs : list (string * Type_)) :
  leaves (Struct fs) = flat_map (fun f => leaves (snd f)) fs.
Proof.
  induction fs as [|f rest IH]; [reflexivity|].
  cbn [flat_map]. rewrite <- IH. reflexivity.
Qed.

Lemma hashmapIsBinaryKey_leaves (T : Type_) :
  hashmapIsBinaryKey T = forallb binaryLeaf (leaves T).
Proof.
  induction T as [t Ht|fs IH|n e IH|name u IH] using key_type_ind.
  - destruct t; try contradiction; cbn; try reflexivity.
    + unfold hasInfo. now rewrite andb_true_r.
  - rewrite hashmapIsBinaryKey_Struct, leaves_Struct.
    induction IH as [|f rest Hf _ IHrest]; [reflexivity|].
    cbn [forallb flat_map]. rewrite forallb_app, <- IHrest, <- Hf.
    now rewrite hashmapIsBinaryKey_Underlying.
  - exact IH.
  - exact IH.
Qed.

(** X5: [hashmapIsBinaryKey] accepts a key type exactly when everything it
    is made of, through struct fields, array elements and named types at
    any depth, is a boolean, an integer or a pointer; so an accepted key
    contains no string, float, interface, slice, map, channel or
    function. *)
Theorem hashmapIsBinaryKey_made_of (T : Type_) :
  hashmapIsBinaryKey T = true <->
  forall l, In l (leaves T) ->
    (exists k, l = Basic k /\
               Z.land (Info k) (Z.lor IsBoolean IsInteger) <> 0) \/
    (exists e, l = Pointer e).
Proof.
  rewrite hashmapIsBinaryKey_leaves, forallb_forall.
  split; intros H l Hl; specialize (H l Hl).
  - destruct l; try discriminate H.
    + left. eexists. split; [reflexivity|].
      cbn [binaryLeaf] in H. unfold hasInfo in H.
      apply negb_true_iff, Z.eqb_neq in H. exact H.
    + right. eexists. reflexivity.
  - destruct H as [(k & -> & Hk)|(e & ->)]; [|reflexivity].
    cbn [binaryLeaf]. unfold hasInfo.
    apply negb_true_iff, Z.eqb_neq. exact Hk.
Qed.

Lemma forallb_Permutation {A} (f : A -> bool) (l l' : list A) :
  Permutation l l' -> forallb f l = forallb f l'.
Proof.
  induction 1 as [|x l l' _ IH|x y l|l l' l'' _ IH1 _ IH2]; cbn [forallb].
  - reflexivity.
  - now rewrite IH.
  - now destruct (f x), (f y).
  - now rewrite IH1.
Qed.

Lemma hashmapIsBinaryKey_Struct_types (fs : list (string * Type_)) :
  hashmapIsBinaryKey (Struct fs) = forallb hashmapIsBinaryKey (map snd fs).
Proof.
  rewrite hashmapIsBinaryKey_Struct.
  induction fs as [|f rest IH]; [reflexivity|].
  cbn [forallb map]. now rewrite IH, hashmapIsBinaryKey_Underlying.
Qed.

(** X6: for a struct key only the field types count, not their names or
    their order: structs whose field types are a permutation of each
    other are accepted alike, and a struct with the fields of two structs
    is accepted exactly when both are. *)
Theorem hashmapIsBinaryKey_struct_fields :
  (forall fs gs,
     Permutation (map snd fs) (map snd gs) ->
     hashmapIsBinaryKey (Struct fs) = hashmapIsBinaryKey (Struct gs)) /\
  (forall fs gs,
     hashmapIsBinaryKey (Struct (fs ++ gs)) =
     hashmapIsBinaryKey (Struct fs) && hashmapIsBinaryKey (Struct gs)).
Proof.
  split; intros fs gs.
  - intros Hperm. rewrite !hashmapIsBinaryKey_Struct_types.
    now apply forallb_Permutation.
  - rewrite !hashmapIsBinaryKey_Struct_types, map_app.
    apply forallb_app.
Qed.

Lemma hashmapIsBinaryKey_struct_fields_witness :
  Permutation [Basic Int32; Basic String] [Basic String; Basic Int32] /\
  hashmapIsBinaryKey (Struct [("a", Basic Int32); ("b", Basic String)]) =
  hashmapIsBinaryKey (Struct [("x", Basic String); ("y", Basic Int32)]).
Proof.
  split; [apply perm_swap|].
  apply (proj1 hashmapIsBinaryKey_struct_fields). apply perm_swap.
Defined.

(** X7: a struct key can be flattened without changing the verdict: a
    field whose underlying type is a struct counts as that struct's
    fields would in its place, and a field of array type counts as one
    field of the element type would. *)
Theorem hashmapIsBinaryKey_flatten (pre post : list (string * Type_))
    (name : string) (T : Type_) :
  (forall inner,
     Underlying T = Struct inner ->
     hashmapIsBinaryKey (Struct (pre ++ (name, T) :: post)) =
     hashmapIsBinaryKey (Struct (pre ++ inner ++ post))) /\
  (forall n elem,
     Underlying T = Array n elem ->
     hashmapIsBinaryKey (Struct (pre ++ (name, T) :: post)) =
     hashmapIsBinaryKey (Struct (pre ++ (name, elem) :: post))).
Proof.
  split.
  - intros inner HT.
    rewrite !hashmapIsBinaryKey_Struct_types, !map_app.
    cbn [map snd]. rewrite !forallb_app. cbn [forallb].
    rewrite <- (hashmapIsBinaryKey_Underlying T), HT.
    now rewrite hashmapIsBinaryKey_Struct_types.
  - intros n elem HT.
    rewrite !hashmapIsBinaryKey_Struct_types, !map_app.
    cbn [map snd]. rewrite !forallb_app. cbn [forallb].
    now rewrite <- (hashmapIsBinaryKey_Underlying T), HT.
Qed.

Lemma hashmapIsBinaryKey_flatten_witness :
  let point := Named "main.Point"
                 (Struct [("x", Basic Int32); ("y", Basic Int32)]) in
  Underlying point = Struct [("x", Basic Int32); ("y", Basic Int32)] /\
  hashmapIsBinaryKey
    (Struct ([("id", Basic Uint8)] ++ ("at", point) :: [("ok", Basic Bool)])) =
  hashmapIsBinaryKey
    (Struct ([("id", Basic Uint8)] ++
             [("x", Basic Int32); ("y", Basic Int32)] ++
             [("ok", Basic Bool)])).
Proof.
  split; [reflexivity|].
  apply (proj1 (hashmapIsBinaryKey_flatten [("id", Basic Uint8)]
                  [("ok", Basic Bool)] "at"
                  (Named "main.Point"
                     (Struct [("x", Basic Int32); ("y", Basic Int32)])))).
  reflexivity.
Defined.

(** ** The outcome of each dispatching procedure *)

Lemma emitted_same (s : State) : emitted s s = [].
Proof. unfold emitted. apply skipn_all. Qed.

Lemma insts_emitted (s : State) (l : list llvm.Instr) (n : nat)
    (d : list Error) :
  insts (mkState (insts s ++ l) n d) =
  insts s ++ emitted s (mkState (insts s ++ l) n d).
Proof. now rewrite emitted_app. Qed.

(** X8: a lookup never panics and has one of two outcomes: it emits
    exactly one runtime call and returns a value and no error, or it emits
    no runtime call and returns the empty value with an error.  Either
    way it keeps the instructions emitted before and adds no
    diagnostic. *)
Theorem emitMapLookup_outcome (c : Compiler) (T valueType : Type_)
    (m key : llvm.Value) (commaOk : bool) (pos : Z) (s : State) :
  exists result err s',
    emitMapLookup c T valueType m key commaOk pos s =
      Some (result, err, s') /\
    insts s' = insts s ++ emitted s s' /\
    diagnostics s' = diagnostics s /\
    ((err = None /\ llvm.IsNil result = false /\
      exists fn, calls (emitted s s') = [fn]) \/
     (err <> None /\ result = llvm.Nil /\ calls (emitted s s') = [])).
Proof.
  destruct (classify_cases T) as [[_ HT]|[[_ [HT HB]]|[_ [HT HB]]]].
  - pose proof (emitMapLookup_string c m key pos s T valueType commaOk HT)
      as H.
    cbv zeta in H. destruct commaOk; cbn [lookupResult] in H; rewrite H;
      do 3 eexists; (split; [reflexivity|]);
      (split; [apply insts_emitted|]); (split; [reflexivity|]);
      rewrite emitted_app; left; repeat split; eexists; reflexivity.
  - pose proof (emitMapLookup_binary c m key pos s T valueType commaOk HT HB)
      as H.
    cbv zeta in H. destruct commaOk; cbn [lookupResult] in H; rewrite H;
      do 3 eexists; (split; [reflexivity|]);
      (split; [apply insts_emitted|]); (split; [reflexivity|]);
      rewrite emitted_app; left; repeat split; eexists; reflexivity.
  - rewrite (emitMapLookup_unsupported c m key pos s T valueType commaOk HT HB).
    do 3 eexists. split; [reflexivity|].
    split; [apply insts_emitted|]. split; [reflexivity|].
    rewrite emitted_app. right. repeat split. discriminate.
Qed.

(** X9: an update never panics and brackets all it emits in the value
    buffer: it first stages "hashmap.value" and stores the value there,
    and the last instruction releases that buffer, on every branch.  In
    between is exactly one call of a set entry point, or none when the
    key is unsupported; then, and only then, one diagnostic is added. *)
Theorem emitMapUpdate_outcome (c : Compiler) (T : Type_)
    (m key value : llvm.Value) (pos : Z) (s : State) :
  exists s' alloca ptr size between,
    emitMapUpdate c T m key value pos s = Some (tt, s') /\
    insts s' = insts s ++ emitted s s' /\
    emitted s s' =
      llvm.TemporaryAlloca alloca ptr size "hashmap.value"
      :: llvm.Store value alloca
      :: between ++ [llvm.LifetimeEnd ptr size] /\
    calls between = entryPoint Update (keyClass Update T) /\
    ((keyClass Update T <> Unsupported /\ diagnostics s' = diagnostics s) \/
     (keyClass Update T = Unsupported /\
      exists err, diagnostics s' = diagnostics s ++ [err])).
Proof.
  cbn [keyClass].
  destruct (classify_cases (Underlying T))
    as [[Hc HT]|[[Hc [HT HB]]|[Hc [HT HB]]]]; rewrite Hc.
  - rewrite (emitMapUpdate_string c m key pos s T value HT).
    do 4 eexists. eexists [_].
    split; [reflexivity|]. split; [apply insts_emitted|].
    rewrite emitted_app. split; [reflexivity|]. split; [reflexivity|].
    left. split; [discriminate | reflexivity].
  - rewrite (emitMapUpdate_binary c m key pos s T value HT HB).
    do 4 eexists. eexists [_; _; _; _].
    split; [reflexivity|]. split; [apply insts_emitted|].
    rewrite emitted_app. split; [reflexivity|]. split; [reflexivity|].
    left. split; [discriminate | reflexivity].
  - rewrite (emitMapUpdate_unsupported c m key pos s T value HT HB).
    do 4 eexists. exists [].
    split; [reflexivity|]. split; [apply insts_emitted|].
    rewrite emitted_app. split; [reflexivity|]. split; [reflexivity|].
    right. split; [reflexivity|]. eexists. reflexivity.
Qed.

(** X10: a delete never panics.  For an unsupported key it returns the
    error and leaves the state as it was: no instruction, no register, no
    diagnostic.  Otherwise it returns no error and emits exactly one call;
    it stages a buffer only for a binary key, a string key being passed
    by value. *)
Theorem emitMapDelete_outcome (c : Compiler) (T : Type_)
    (m key : llvm.Value) (pos : Z) (s : State) :
  exists err s',
    emitMapDelete c T m key pos s = Some (err, s') /\
    insts s' = insts s ++ emitted s s' /\
    diagnostics s' = diagnostics s /\
    match keyClass Delete T with
    | Unsupported => err <> None /\ s' = s
    | StringKey =>
        err = None /\
        exists result,
          emitted s s' = [llvm.Call result "hashmapStringDelete" [m; key]]
    | BinaryKey =>
        err = None /\
        calls (emitted s s') = ["hashmapBinaryDelete"] /\
        exists keyPtr,
          staged (emitted s s') = [keyPtr] /\
          released (emitted s s') = [keyPtr]
    end.
Proof.
  cbn [keyClass].
  destruct (classify_cases (Underlying T))
    as [[Hc HT]|[[Hc [HT HB]]|[Hc [HT HB]]]]; rewrite Hc.
  - rewrite (emitMapDelete_string c m key pos s T HT).
    do 2 eexists. split; [reflexivity|].
    split; [apply insts_emitted|]. split; [reflexivity|].
    rewrite emitted_app. split; [reflexivity|]. eexists. reflexivity.
  - rewrite (emitMapDelete_binary c m key pos s T HT HB).
    do 2 eexists. split; [reflexivity|].
    split; [apply insts_emitted|]. split; [reflexivity|].
    rewrite emitted_app. split; [reflexivity|]. split; [reflexivity|].
    eexists. split; reflexivity.
  - rewrite (emitMapDelete_unsupported c m key pos s T HT HB).
    do 2 eexists. split; [reflexivity|].
    rewrite emitted_same, app_nil_r.
    split; [reflexivity|]. split; [reflexivity|].
    split; [discriminate | reflexivity].
Qed.

(** X11: the diagnostic for an unsupported key carries the position of
    the operation, and the type it names differs by operation: lookup
    names the key type as given, update and delete name its underlying
    type. *)
Theorem unsupported_key_diagnostic (c : Compiler) (T valueType : Type_)
    (m key value : llvm.Value) (commaOk : bool) (pos : Z) (s : State) :
  (keyClass Lookup T = Unsupported ->
   exists s',
     emitMapLookup c T valueType m key commaOk pos s =
     Some (llvm.Nil,
           Some (makeError pos (unsupportedKey ++ TypeString T)%string),
           s')) /\
  (keyClass Update T = Unsupported ->
   exists s',
     emitMapUpdate c T m key value pos s = Some (tt, s') /\
     diagnostics s' =
     diagnostics s ++
     [makeError pos
        (unsupportedKey ++ TypeString (Underlying T))%string]) /\
  (keyClass Delete T = Unsupported ->
   emitMapDelete c T m key pos s =
   Some (Some (makeError pos
                 (unsupportedKey ++ TypeString (Underlying T))%string),
         s)).
Proof.
  split; [|split]; intros HU.
  - destruct (keyClass_Lookup_unsupported T HU) as [HT HB].
    rewrite (emitMapLookup_unsupported c m key pos s T valueType commaOk
               HT HB).
    eexists. reflexivity.
  - destruct (keyClass_Underlying_unsupported Update T) as [HT HB];
      [discriminate | exact HU |].
    rewrite (emitMapUpdate_unsupported c m key pos s T value HT HB).
    eexists. split; reflexivity.
  - destruct (keyClass_Underlying_unsupported Delete T) as [HT HB];
      [discriminate | exact HU |].
    apply (emitMapDelete_unsupported c m key pos s T HT HB).
Qed.

(** For the named type [main.Celsius] with underlying type [float64],
    lookup reports [main.Celsius] and delete reports [float64]. *)
Lemma unsupported_key_diagnostic_witness :
  let T := Named "main.Celsius" (Basic Float64) in
  keyClass Lookup T = Unsupported /\
  keyClass Delete T = Unsupported /\
  (exists s',
     emitMapLookup gba.compiler T (Basic Int32) gba.m
       (llvm.Reg 1 llvm.DoubleType) false 9 gba.start =
     Some (llvm.Nil,
           Some (makeError 9 (unsupportedKey ++ "main.Celsius")%string),
           s')) /\
  emitMapDelete gba.compiler T gba.m (llvm.Reg 1 llvm.DoubleType) 9
    gba.start =
  Some (Some (makeError 9 (unsupportedKey ++ "float64")%string), gba.start).
Proof.
  intros T. split; [reflexivity|]. split; [reflexivity|].
  destruct (unsupported_key_diagnostic gba.compiler T (Basic Int32) gba.m
              (llvm.Reg 1 llvm.DoubleType) llvm.Nil false 9 gba.start)
    as (Hlookup & _ & Hdelete).
  split.
  - apply Hlookup. reflexivity.
  - apply Hdelete. reflexivity.
Defined.

(** ** Registers *)











(** ** The operands when the runtime is called *)

Ltac run_operands3 m key value Hm Hk Hv :=
  destruct m, key, value; cbn [definedBefore] in Hm, Hk, Hv;
  unfold i8ptrType; run_machine; reflexivity.

(** X14: when the code an update emits calls the set entry point, the
    runtime sees the operands as they were before the operation: the map,
    the key, by value for a string key and in the key buffer otherwise,
    and the value in the value buffer; both buffers are filled before the
    call and are still live. *)
Theorem emitMapUpdate_operands_at_call (rt : machine.Runtime)
    (sigma : machine.Machine) (c : Compiler) (T : Type_)
    (m key value : llvm.Value) (pos : Z) (s : State) :
  keyClass Update T <> Unsupported ->
  definedBefore (nextId s) m ->
  definedBefore (nextId s) key ->
  definedBefore (nextId s) value ->
  exists s' before result fn argMap argKey argValue after,
    emitMapUpdate c T m key value pos s = Some (tt, s') /\
    emitted s s' =
      before ++ llvm.Call result fn [argMap; argKey; argValue] :: after /\
    calls before = [] /\
    let atCall := machine.run rt before sigma in
    machine.eval atCall argMap = machine.eval sigma m /\
    seenKey (isBasicString (Underlying T)) atCall argKey =
      machine.eval sigma key /\
    machine.load atCall (machine.eval atCall argValue) =
      machine.eval sigma value.
Proof.
  cbn [keyClass]. intros HU Hm Hk Hv.
  destruct (classify_cases (Underlying T))
    as [[_ HT]|[[_ [HT HB]]|[Hc _]]]; [| |congruence]; rewrite HT.
  - rewrite (emitMapUpdate_string c m key pos s T value HT).
    eexists. eexists [_; _]. do 6 eexists.
    split; [reflexivity|]. rewrite emitted_app.
    split; [reflexivity|]. split; [reflexivity|].
    cbv zeta. unfold seenKey.
    split; [|split]; run_operands3 m key value Hm Hk Hv.
  - rewrite (emitMapUpdate_binary c m key pos s T value HT HB).
    eexists. eexists [_; _; _; _]. do 6 eexists.
    split; [reflexivity|]. rewrite emitted_app.
    split; [reflexivity|]. split; [reflexivity|].
    cbv zeta. unfold seenKey.
    split; [|split]; run_operands3 m key value Hm Hk Hv.
Qed.

Lemma emitMapUpdate_operands_at_call_witness :
  let key := llvm.Reg 1 (llvm.IntType 32) in
  let value := llvm.Const (llvm.IntType 8) 3 in
  keyClass Update (Basic Int32) <> Unsupported /\
  exists s' before result fn argMap argKey argValue after,
    emitMapUpdate gba.compiler (Basic Int32) gba.m key value 5 gba.start =
      Some (tt, s') /\
    emitted gba.start s' =
      before ++ llvm.Call result fn [argMap; argKey; argValue] :: after /\
    calls before = [] /\
    let atCall := machine.run gba.emptyMaps before gba.boot in
    machine.eval atCall argMap = machine.eval gba.boot gba.m /\
    seenKey (isBasicString (Underlying (Basic Int32))) atCall argKey =
      machine.eval gba.boot key /\
    machine.load atCall (machine.eval atCall argValue) =
      machine.eval gba.boot value.
Proof.
  intros key value. split; [discriminate|].
  apply (emitMapUpdate_operands_at_call gba.emptyMaps gba.boot gba.compiler
           (Basic Int32) gba.m key value 5 gba.start).
  - discriminate.
  - cbn; lia.
  - cbn; lia.
  - exact I.
Defined.

(** X15: when the code a delete emits calls the delete entry point, the
    runtime sees the map and the key as they were before the operation,
    the key by value for a string key and in the key buffer, stored there
    before the call, otherwise. *)
Theorem emitMapDelete_operands_at_call (rt : machine.Runtime)
    (sigma : machine.Machine) (c : Compiler) (T : Type_)
    (m key : llvm.Value) (pos : Z) (s : State) :
  keyClass Delete T <> Unsupported ->
  definedBefore (nextId s) m ->
  definedBefore (nextId s) key ->
  exists s' before result fn argMap argKey after,
    emitMapDelete c T m key pos s = Some (None, s') /\
    emitted s s' = before ++ llvm.Call result fn [argMap; argKey] :: after /\
    calls before = [] /\
    let atCall := machine.run rt before sigma in
    machine.eval atCall argMap = machine.eval sigma m /\
    seenKey (isBasicString (Underlying T)) atCall argKey =
      machine.eval sigma key.
Proof.
  cbn [keyClass]. intros HU Hm Hk.
  destruct (classify_cases (Underlying T))
    as [[_ HT]|[[_ [HT HB]]|[Hc _]]]; [| |congruence]; rewrite HT.
  - rewrite (emitMapDelete_string c m key pos s T HT).
    eexists. exists []. do 5 eexists.
    split; [reflexivity|]. rewrite emitted_app.
    split; [reflexivity|]. split; [reflexivity|].
    cbv zeta. unfold seenKey. split; reflexivity.
  - rewrite (emitMapDelete_binary c m key pos s T HT HB).
    eexists. eexists [_; _]. do 5 eexists.
    split; [reflexivity|]. rewrite emitted_app.
    split; [reflexivity|]. split; [reflexivity|].
    cbv zeta. unfold seenKey.
    split; run_operands m key Hm Hk.
Qed.

Lemma emitMapDelete_operands_at_call_witness :
  let T := Struct [("a", Basic Int32); ("b", Basic Bool)] in
  let key := llvm.Reg 1 (gba.getLLVMType T) in
  keyClass Delete T <> Unsupported /\
  exists s' before result fn argMap argKey after,
    emitMapDelete gba.compiler T gba.m key 5 gba.start = Some (None, s') /\
    emitted gba.start s' =
      before ++ llvm.Call result fn [argMap; argKey] :: after /\
    calls before = [] /\
    let atCall := machine.run gba.emptyMaps before gba.boot in
    machine.eval atCall argMap = machine.eval gba.boot gba.m /\
    seenKey (isBasicString (Underlying T)) atCall argKey =
      machine.eval gba.boot key.
Proof.
  intros T key. split; [discriminate|].
  apply (emitMapDelete_operands_at_call gba.emptyMaps gba.boot gba.compiler
           T gba.m key 5 gba.start).
  - discriminate.
  - cbn; lia.
  - cbn; lia.
Defined.

(** X16: when the code a lookup emits calls the get entry point, the
    runtime sees the map and the key as they were before the operation,
    and the result buffer it is handed is live and has not been written
    to: the lowering leaves it to the runtime to fill it. *)
Theorem emitMapLookup_operands_at_call (rt : machine.Runtime)
    (sigma : machine.Machine) (c : Compiler) (T valueType : Type_)
    (m key : llvm.Value) (commaOk : bool) (pos : Z) (s : State) :
  keyClass Lookup T <> Unsupported ->
  definedBefore (nextId s) m ->
  definedBefore (nextId s) key ->
  exists value s' before result fn argMap argKey argResult after buffer,
    emitMapLookup c T valueType m key commaOk pos s =
      Some (value, None, s') /\
    emitted s s' =
      before ++ llvm.Call result fn [argMap; argKey; argResult] :: after /\
    calls before = [] /\
    let atCall := machine.run rt before sigma in
    machine.eval atCall argMap = machine.eval sigma m /\
    seenKey (isBasicString T) atCall argKey = machine.eval sigma key /\
    machine.eval atCall argResult = machine.Addr buffer /\
    machine.mem atCall buffer = Some machine.Undefined.
Proof.
  cbn [keyClass]. intros HU Hm Hk.
  destruct (classify_cases T) as [[_ HT]|[[_ [HT HB]]|[Hc _]]];
    [| |congruence]; rewrite HT.
  - pose proof (emitMapLookup_string c m key pos s T valueType commaOk HT)
      as H.
    cbv zeta in H.
    destruct commaOk; cbn [lookupResult app] in H; rewrite H; clear H;
      do 2 eexists; eexists [_]; do 7 eexists;
      (split; [reflexivity|]); rewrite emitted_app;
      (split; [reflexivity|]); (split; [reflexivity|]);
      cbv zeta; unfold seenKey;
      (split; [|split; [|split]]); run_operands m key Hm Hk.
  - pose proof (emitMapLookup_binary c m key pos s T valueType commaOk HT HB)
      as H.
    cbv zeta in H.
    destruct commaOk; cbn [lookupResult app] in H; rewrite H; clear H;
      do 2 eexists; eexists [_; _; _]; do 7 eexists;
      (split; [reflexivity|]); rewrite emitted_app;
      (split; [reflexivity|]); (split; [reflexivity|]);
      cbv zeta; unfold seenKey;
      (split; [|split; [|split]]); run_operands m key Hm Hk.
Qed.

Lemma emitMapLookup_operands_at_call_witness :
  let key := llvm.Reg 1 (gba.getLLVMType (Basic String)) in
  keyClass Lookup (Basic String) <> Unsupported /\
  exists value s' before result fn argMap argKey argResult after buffer,
    emitMapLookup gba.compiler (Basic String) (Basic Int32) gba.m key true 7
      gba.start = Some (value, None, s') /\
    emitted gba.start s' =
      before ++ llvm.Call result fn [argMap; argKey; argResult] :: after /\
    calls before = [] /\
    let atCall := machine.run gba.emptyMaps before gba.boot in
    machine.eval atCall argMap = machine.eval gba.boot gba.m /\
    seenKey (isBasicString (Basic String)) atCall argKey =
      machine.eval gba.boot key /\
    machine.eval atCall argResult = machine.Addr buffer /\
    machine.mem atCall buffer = Some machine.Undefined.
Proof.
  intros key. split; [discriminate|].
  apply (emitMapLookup_operands_at_call gba.emptyMaps gba.boot gba.compiler
           (Basic String) (Basic Int32) gba.m key true 7 gba.start).
  - discriminate.
  - cbn; lia.
  - cbn; lia.
Defined.

(** ** What the emitted code leaves behind *)

Ltac clean_run :=
  unfold cleanRun, deadBuffer; cbv zeta;
  split; [intros r Hr; run_machine; reflexivity|];
  split; [intros b Hb; run_machine; reflexivity|];
  intros ptr Hptr; cbn [staged flat_map app In] in Hptr;
  repeat match goal with
         | H : _ \/ _ |- _ => destruct H as [H|H]
         | H : False |- _ => destruct H
         end;
  subst ptr; eexists;
  (split; [run_machine; reflexivity | run_machine; reflexivity]).

(** X17: run on the machine, the code of an update, of a delete and of a
    lookup that succeeds changes no register and no buffer that was there
    before the operation, and leaves every buffer it staged dead. *)
Theorem emitted_code_cleans_up (rt : machine.Runtime)
    (sigma : machine.Machine) (c : Compiler) (T valueType : Type_)
    (m key value : llvm.Value) (commaOk : bool) (pos : Z) (s : State) :
  (exists s',
     emitMapUpdate c T m key value pos s = Some (tt, s') /\
     cleanRun (nextId s) (emitted s s') sigma
       (machine.run rt (emitted s s') sigma)) /\
  (exists err s',
     emitMapDelete c T m key pos s = Some (err, s') /\
     cleanRun (nextId s) (emitted s s') sigma
       (machine.run rt (emitted s s') sigma)) /\
  (keyClass Lookup T <> Unsupported ->
   exists result s',
     emitMapLookup c T valueType m key commaOk pos s =
       Some (result, None, s') /\
     cleanRun (nextId s) (emitted s s') sigma
       (machine.run rt (emitted s s') sigma)).
Proof.
  split; [|split].
  - destruct (classify_cases (Underlying T))
      as [[_ HT]|[[_ [HT HB]]|[_ [HT HB]]]].
    + rewrite (emitMapUpdate_string c m key pos s T value HT).
      eexists. split; [reflexivity|]. rewrite emitted_app. clean_run.
    + rewrite (emitMapUpdate_binary c m key pos s T value HT HB).
      eexists. split; [reflexivity|]. rewrite emitted_app. clean_run.
    + rewrite (emitMapUpdate_unsupported c m key pos s T value HT HB).
      eexists. split; [reflexivity|]. rewrite emitted_app. clean_run.
  - destruct (classify_cases (Underlying T))
      as [[_ HT]|[[_ [HT HB]]|[_ [HT HB]]]].
    + rewrite (emitMapDelete_string c m key pos s T HT).
      do 2 eexists. split; [reflexivity|]. rewrite emitted_app. clean_run.
    + rewrite (emitMapDelete_binary c m key pos s T HT HB).
      do 2 eexists. split; [reflexivity|]. rewrite emitted_app. clean_run.
    + rewrite (emitMapDelete_unsupported c m key pos s T HT HB).
      do 2 eexists. split; [reflexivity|]. rewrite emitted_same.
      clean_run.
  - cbn [keyClass]. intros HU.
    destruct (classify_cases T) as [[_ HT]|[[_ [HT HB]]|[Hc _]]];
      [| |congruence].
    + pose proof (emitMapLookup_string c m key pos s T valueType commaOk HT)
        as H.
      cbv zeta in H.
      destruct commaOk; cbn [lookupResult app] in H; rewrite H; clear H;
        do 2 eexists; (split; [reflexivity|]); rewrite emitted_app;
        clean_run.
    + pose proof (emitMapLookup_binary c m key pos s T valueType commaOk
                    HT HB) as H.
      cbv zeta in H.
      destruct commaOk; cbn [lookupResult app] in H; rewrite H; clear H;
        do 2 eexists; (split; [reflexivity|]); rewrite emitted_app;
        clean_run.
Qed.

Lemma emitted_code_cleans_up_witness :
  let key := llvm.Reg 1 (llvm.IntType 32) in
  keyClass Lookup (Basic Int32) <> Unsupported /\
  exists result s',
    emitMapLookup gba.compiler (Basic Int32) (Basic Int32) gba.m key true 7
      gba.start = Some (result, None, s') /\
    cleanRun (nextId gba.start) (emitted gba.start s') gba.boot
      (machine.run gba.emptyMaps (emitted gba.start s') gba.boot).
Proof.
  intros key. split; [discriminate|].
  apply (emitted_code_cleans_up gba.emptyMaps gba.boot gba.compiler
           (Basic Int32) (Basic Int32) gba.m key llvm.Nil true 7 gba.start).
  discriminate.
Defined.

(** ** Creation: sizes and failures *)

(** X18: whenever [emitMakeMap] returns a handle, the handle is the
    result of a call to [hashmapMake] that it emitted last, and the key
    and value sizes passed are the allocation sizes of the underlying key
    and value types cut to 8 bits: a size is passed unchanged exactly
    when it is below 256. *)
Theorem emitMakeMap_sizes_are_bytes (c : Compiler) (frame : Frame)
    (expr : ssa.MakeMap) (keyType elemType : Type_) (s s' : State)
    (hashmap : llvm.Value) :
  Underlying (ssa.MakeMap_Type expr) = Map keyType elemType ->
  emitMakeMap c frame expr s = Some (hashmap, None, s') ->
  let keySize := TypeAllocSize c (getLLVMType c (Underlying keyType)) in
  let valueSize := TypeAllocSize c (getLLVMType c (Underlying elemType)) in
  exists before sizeHint,
    insts s' =
      before ++
      [llvm.Call hashmap "hashmapMake"
         [llvm.Const (llvm.IntType 8) (keySize mod 256);
          llvm.Const (llvm.IntType 8) (valueSize mod 256);
          sizeHint]] /\
    (keySize mod 256 = keySize <-> 0 <= keySize < 256) /\
    (valueSize mod 256 = valueSize <-> 0 <= valueSize < 256).
Proof.
  intros HT Hrun keySize valueSize.
  assert (Hmod : forall z, z mod 256 = z <-> 0 <= z < 256).
  { intros z. split; intros H.
    - rewrite <- H. apply Z.mod_pos_bound. lia.
    - now apply Z.mod_small. }
  unfold emitMakeMap in Hrun. rewrite HT in Hrun.
  destruct (ssa.Reserve expr) as [reserve|].
  - unfold bind at 1 in Hrun.
    destruct (parseConvert c (ssa.TypeOf reserve) (Basic Uintptr)
                (getValue c frame reserve) (ssa.MakeMap_Pos expr) s)
      as [[[sizeHint [err|]] s1]|]; [discriminate Hrun| |discriminate Hrun].
    revert Hrun. run_builder. intros Hrun.
    injection Hrun as Hh Hs. subst hashmap s'.
    do 2 eexists. cbn [insts]. split; [reflexivity|]. split; apply Hmod.
  - revert Hrun. run_builder. intros Hrun.
    injection Hrun as Hh Hs. subst hashmap s'.
    do 2 eexists. cbn [insts]. split; [reflexivity|]. split; apply Hmod.
Qed.

(** A map whose key is an array of 64 [int32], 256 bytes, is created with
    the key size 0. *)
Lemma emitMakeMap_sizes_are_bytes_witness :
  let expr := ssa.mkMakeMap (Map (Array 64 (Basic Int32)) (Basic Uint8))
                None 3 in
  exists hashmap s' before sizeHint,
    emitMakeMap gba.compiler (mkFrame []) expr gba.start =
      Some (hashmap, None, s') /\
    insts s' =
      before ++
      [llvm.Call hashmap "hashmapMake"
         [llvm.Const (llvm.IntType 8) 0; llvm.Const (llvm.IntType 8) 1;
          sizeHint]].
Proof.
  intros expr.
  destruct (emitMakeMap gba.compiler (mkFrame []) expr gba.start)
    as [[[hashmap [err|]] s']|] eqn:Hrun;
    try (vm_compute in Hrun; discriminate Hrun).
  destruct (emitMakeMap_sizes_are_bytes gba.compiler (mkFrame []) expr
              (Array 64 (Basic Int32)) (Basic Uint8) gba.start s' hashmap
              eq_refl Hrun)
    as (before & sizeHint & Hinsts & _).
  exists hashmap, s', before, sizeHint.
  split; [reflexivity | exact Hinsts].
Defined.

(** X19: [emitMakeMap] fails in two ways only.  It returns an error
    exactly when a size hint is given and [parseConvert] returns that
    error for it; the value returned is then the empty value, and the
    state is the one [parseConvert] left, with no call added.  It panics
    when the type of the expression is not a map type, or when
    [parseConvert] does. *)
Theorem emitMakeMap_failures (c : Compiler) (frame : Frame)
    (expr : ssa.MakeMap) (s : State) :
  (forall keyType elemType,
     Underlying (ssa.MakeMap_Type expr) = Map keyType elemType ->
     (forall v err s',
        emitMakeMap c frame expr s = Some (v, Some err, s') <->
        v = llvm.Nil /\
        exists reserve sizeHint,
          ssa.Reserve expr = Some reserve /\
          parseConvert c (ssa.TypeOf reserve) (Basic Uintptr)
            (getValue c frame reserve) (ssa.MakeMap_Pos expr) s =
            Some (sizeHint, Some err, s')) /\
     (emitMakeMap c frame expr s = None <->
      exists reserve,
        ssa.Reserve expr = Some reserve /\
        parseConvert c (ssa.TypeOf reserve) (Basic Uintptr)
          (getValue c frame reserve) (ssa.MakeMap_Pos expr) s = None)) /\
  ((forall keyType elemType,
      Underlying (ssa.MakeMap_Type expr) <> Map keyType elemType) ->
   emitMakeMap c frame expr s = None).
Proof.
  split.
  - intros keyType elemType HT.
    unfold emitMakeMap. rewrite HT.
    destruct (ssa.Reserve expr) as [reserve|].
    + unfold bind at 1. unfold bind at 2.
      destruct (parseConvert c (ssa.TypeOf reserve) (Basic Uintptr)
                  (getValue c frame reserve) (ssa.MakeMap_Pos expr) s)
        as [[[sizeHint [e|]] s1]|] eqn:Hconv.
      * split.
        -- intros v err s'. cbv [ret]. split.
           ++ intros H. injection H as Hv He Hs. subst v e s1.
              split; [reflexivity|]. exists reserve, sizeHint. auto.
           ++ intros [Hv (r & h & Hr & Hc)].
              injection Hr as Hr. subst r v. congruence.
        -- split; [discriminate|].
           intros (r & Hr & Hc). injection Hr as Hr. subst r. congruence.
      * split.
        -- intros v err s'. run_builder. split; [discriminate|].
           intros [_ (r & h & Hr & Hc)].
           injection Hr as Hr. subst r. congruence.
        -- run_builder. split; [discriminate|].
           intros (r & Hr & Hc). injection Hr as Hr. subst r. congruence.
      * split.
        -- intros v err s'. split; [discriminate|].
           intros [_ (r & h & Hr & Hc)].
           injection Hr as Hr. subst r. congruence.
        -- split; [|reflexivity]. intros _. exists reserve. auto.
    + split.
      * intros v err s'. run_builder. split; [discriminate|].
        intros [_ (r & h & Hr & _)]. discriminate Hr.
      * run_builder. split; [discriminate|].
        intros (r & Hr & _). discriminate Hr.
  - intros HT. unfold emitMakeMap.
    destruct (Underlying (ssa.MakeMap_Type expr)) eqn:HU;
      try reflexivity.
    exfalso. eapply HT. reflexivity.
Qed.

(** With a conversion that accepts integer hints only, a [float64] hint
    makes creation return the conversion's error and emit nothing. *)
Lemma emitMakeMap_failures_witness :
  let expr := ssa.mkMakeMap (Map (Basic Uint8) (Basic Uint8))
                (Some (ssa.mkValue "f" (Basic Float64))) 3 in
  Underlying (ssa.MakeMap_Type expr) = Map (Basic Uint8) (Basic Uint8) /\
  emitMakeMap strictCompiler (mkFrame []) expr gba.start =
    Some (llvm.Nil, Some (makeError 3 "todo: convert"), gba.start).
Proof.
  intros expr. split; [reflexivity|].
  destruct (emitMakeMap_failures strictCompiler (mkFrame []) expr gba.start)
    as [H _].
  destruct (H (Basic Uint8) (Basic Uint8) eq_refl) as [Herr _].
  apply Herr. split; [reflexivity|].
  do 2 eexists. split; reflexivity.
Defined.
